(** * medio.read_save: the format-dispatching facade for medical image I/O

    A shallow embedding of [src/medio/read_save.py] (the functions
    [read_img], [save_img] and [save_dir]) and the properties of its dispatch
    contract.

    The facade does no decoding of its own.  Every call it makes leaves the
    module: the three backends ([NibIO], [ItkIO], [PdcmIO]), the format
    sniffer [is_nifti], the orientation converter [inv_axcodes], numpy's
    [astype] and pathlib's [Path.parent] / [Path.mkdir].  These collaborators
    are the fields of the interface [Env]; the facade is written once, over
    any [Env], in a monad that threads the outside world, propagates Python
    exceptions and records every collaborator call that can perform I/O
    together with the world it was made in. *)

From Stdlib Require Import Ascii String ZArith List Bool.
From stdpp Require Import gmap strings list.

(** ** Python values that the facade inspects *)

(** The outcome of a Python call: a value, or a raised exception. *)
Inductive Result (X A : Type) : Type :=
| Ok (a : A)
| Raise (x : X).
Arguments Ok {X A} a.
Arguments Raise {X A} x.

(** The exceptions a call to the facade can end in.  [ValueError] and
    [NotImplementedError] are the two that [read_save.py] raises itself, with
    their messages; [Propagated] wraps whatever a collaborator raised, which
    the facade neither catches nor translates. *)
Inductive Exn (ExtExn : Type) : Type :=
| ValueError (msg : string)
| NotImplementedError (msg : string)
| Propagated (e : ExtExn).
Arguments ValueError {ExtExn} msg.
Arguments NotImplementedError {ExtExn} msg.
Arguments Propagated {ExtExn} e.

(** The local variable [reader] of [read_img] holds one of three function
    objects, and [writer] of [save_img] one of two. *)
Inductive Reader : Type := nib_reader | itk_reader | pdcm_reader.
Inductive Writer : Type := nib_writer | itk_writer.

(** [reader == nib_reader] *)
Definition Reader_eqb (r1 r2 : Reader) : bool :=
  match r1, r2 with
  | nib_reader, nib_reader | itk_reader, itk_reader
  | pdcm_reader, pdcm_reader => true
  | _, _ => false
  end.

(** The backend classes of [medio.backends]. *)
Inductive Backend : Type := NibIO | ItkIO | PdcmIO.

(** ** The messages of the two exceptions raised by the facade *)

Definition dquote : string := String (ascii_of_nat 34) EmptyString.
Definition quoted (s : string) : string := dquote +:+ s +:+ dquote.

Definition read_backend_msg : string :=
  "The backend argument must be one of: " +:+ quoted "itk" +:+ ", "
  +:+ quoted "nib" +:+ ", " +:+ quoted "pdcm" +:+ " (or "
  +:+ quoted "pydicom" +:+ "), None".

Definition save_backend_msg : string :=
  "The backend argument must be one of: " +:+ quoted "itk" +:+ ", "
  +:+ quoted "nib" +:+ ", None".

Definition pdcm_reorient_msg : string :=
  "Pydicom reader backend does not yet support reorientation. The passed "
  +:+ "desired orientation must be None (default).".

(** ** The collaborators *)

(** Everything [read_save.py] imports or calls.  A collaborator that can
    perform I/O is a function of the world that returns a value or raises,
    and a new world; [inv_axcodes] and [astype] compute without I/O but may
    raise.  The optional [check_exist] of [is_nifti] is [None] when the
    caller does not pass the keyword (the callee's default applies). *)
Class Env : Type := {
  Path : Type;
  DType : Type;
  Array : Type;
  Metadata : Type;
  Kwargs : Type;
  ExtExn : Type;
  World : Type;
  is_nifti : Path -> option bool -> World -> (ExtExn + bool) * World;
  inv_axcodes : option string -> ExtExn + option string;
  astype : Array -> DType -> ExtExn + Array;
  Path_parent : Path -> Path;
  Path_mkdir : Path -> bool -> bool -> World -> (ExtExn + unit) * World;
  NibIO_read_img :
    Path -> option string -> bool -> option Z -> Kwargs ->
    World -> (ExtExn + Array * Metadata) * World;
  ItkIO_read_img :
    Path -> option string -> bool -> option Z -> Kwargs ->
    World -> (ExtExn + Array * Metadata) * World;
  PdcmIO_read_img :
    Path -> bool -> option Z -> Kwargs ->
    World -> (ExtExn + Array * Metadata) * World;
  NibIO_save_img :
    Path -> Array -> Metadata -> bool -> option Z -> Kwargs ->
    World -> (ExtExn + unit) * World;
  ItkIO_save_img :
    Path -> Array -> Metadata -> bool -> option Z -> Kwargs ->
    World -> (ExtExn + unit) * World;
  ItkIO_save_dcm_dir :
    Path -> Array -> Metadata -> bool -> option Z -> bool -> bool -> Kwargs ->
    World -> (ExtExn + unit) * World
}.

(** ** Recorded calls *)

(** One constructor per collaborator call that can touch the file system,
    carrying the actual arguments in the order of the source. *)
Inductive Event `{Env} : Type :=
| E_is_nifti (filename : Path) (check_exist : option bool)
| E_NibIO_read_img (input_path : Path) (desired_ornt : option string)
    (header : bool) (channels_axis : option Z) (kwargs : Kwargs)
| E_ItkIO_read_img (input_path : Path) (desired_ornt : option string)
    (header : bool) (channels_axis : option Z) (kwargs : Kwargs)
| E_PdcmIO_read_img (input_path : Path)
    (header : bool) (channels_axis : option Z) (kwargs : Kwargs)
| E_Path_mkdir (dir : Path) (parents exist_ok : bool)
| E_NibIO_save_img (filename : Path) (np_image : Array) (metadata : Metadata)
    (use_original_ornt : bool) (channels_axis : option Z) (kwargs : Kwargs)
| E_ItkIO_save_img (filename : Path) (np_image : Array) (metadata : Metadata)
    (use_original_ornt : bool) (channels_axis : option Z) (kwargs : Kwargs)
| E_ItkIO_save_dcm_dir (dirname : Path) (np_image : Array)
    (metadata : Metadata) (use_original_ornt : bool) (channels_axis : option Z)
    (parents allow_dcm_reorient : bool) (kwargs : Kwargs).

(** A recorded call: what was called, and the world it was called in. *)
Record Call `{Env} : Type := MkCall { ev : Event; before : World }.
Arguments MkCall {_} ev before.

(** ** The monad of the facade *)

(** A computation takes the world and yields its outcome, the world it
    leaves behind (kept when it raises: nothing is rolled back) and the calls
    it made, oldest first. *)
Definition M `{Env} (A : Type) : Type :=
  World -> Result (Exn ExtExn) A * World * list Call.

#[global] Instance M_ret `{Env} : MRet M :=
  λ A (a : A) w, (Ok a, w, []).

#[global] Instance M_bind `{Env} : MBind M :=
  λ A B (k : A -> M B) (m : M A) w,
    match m w with
    | (Ok a, w1, t1) =>
        match k a w1 with
        | (r, w2, t2) => (r, w2, t1 ++ t2)
        end
    | (Raise x, w1, t1) => (Raise x, w1, t1)
    end.

(** [raise X(...)] in the facade itself. *)
Definition raise `{Env} {A : Type} (x : Exn ExtExn) : M A :=
  λ w, (Raise x, w, []).

(** The outcome of a collaborator, as the facade sees it. *)
Definition propagate {X A : Type} (r : X + A) : Result (Exn X) A :=
  match r with
  | inl x => Raise (Propagated x)
  | inr a => Ok a
  end.

(** A call that may perform I/O: recorded, run on the current world. *)
Definition extern `{Env} {A : Type} (e : Event)
    (f : World -> (ExtExn + A) * World) : M A :=
  λ w, match f w with
       | (r, w') => (propagate r, w', [MkCall e w])
       end.

(** A call that computes without I/O: not recorded, world untouched. *)
Definition compute `{Env} {A : Type} (r : ExtExn + A) : M A :=
  λ w, (propagate r, w, []).

(** ** [read_img] (read_save.py, lines 10-55) *)

Definition read_img `{Env} (input_path : Path) (desired_ornt : option string)
    (backend : option string) (dtype : option DType) (header : bool)
    (channels_axis : option Z) (kwargs : Kwargs) : M (Array * Metadata) :=
  (* lines 27-43: the choice of the reader *)
  reader ←
    match backend with
    | None =>
        nifti ← extern (E_is_nifti input_path None) (is_nifti input_path None);
        if nifti : bool then mret nib_reader else mret itk_reader
    | Some backend =>
        if String.eqb backend "nib" then mret nib_reader
        else if String.eqb backend "itk" then mret itk_reader
        else if String.eqb backend "pdcm" || String.eqb backend "pydicom" then
          match desired_ornt with
          | Some _ => raise (NotImplementedError pdcm_reorient_msg)
          | None => mret pdcm_reader
          end
        else raise (ValueError read_backend_msg)
    end;
  (* lines 45-46 *)
  desired_ornt ←
    (if Reader_eqb reader nib_reader then compute (inv_axcodes desired_ornt)
     else mret desired_ornt);
  (* lines 48-51: the DICOM reader takes no orientation; in the other branch
     [reader] is the reader of NibIO or of ItkIO *)
  '(np_image, metadata) ←
    match reader with
    | pdcm_reader =>
        extern (E_PdcmIO_read_img input_path header channels_axis kwargs)
          (PdcmIO_read_img input_path header channels_axis kwargs)
    | nib_reader =>
        extern
          (E_NibIO_read_img input_path desired_ornt header channels_axis kwargs)
          (NibIO_read_img input_path desired_ornt header channels_axis kwargs)
    | itk_reader =>
        extern
          (E_ItkIO_read_img input_path desired_ornt header channels_axis kwargs)
          (ItkIO_read_img input_path desired_ornt header channels_axis kwargs)
    end;
  (* lines 53-55 *)
  np_image ←
    match dtype with
    | Some dtype => compute (astype np_image dtype)
    | None => mret np_image
    end;
  mret (np_image, metadata).

(** ** [save_img] (read_save.py, lines 58-90) *)

Definition save_img `{Env} (filename : Path) (np_image : Array)
    (metadata : Metadata) (use_original_ornt : bool) (backend : option string)
    (dtype : option DType) (channels_axis : option Z) (mkdir parents : bool)
    (kwargs : Kwargs) : M unit :=
  (* lines 74-85: the choice of the writer *)
  writer ←
    match backend with
    | None =>
        nifti ← extern (E_is_nifti filename (Some false))
                  (is_nifti filename (Some false));
        if nifti : bool then mret nib_writer else mret itk_writer
    | Some backend =>
        if String.eqb backend "nib" then mret nib_writer
        else if String.eqb backend "itk" then mret itk_writer
        else raise (ValueError save_backend_msg)
    end;
  (* lines 86-87 *)
  (if mkdir
   then extern (E_Path_mkdir (Path_parent filename) parents true)
          (Path_mkdir (Path_parent filename) parents true)
   else mret tt);;
  (* lines 88-90 *)
  np_image ←
    match dtype with
    | Some dtype => compute (astype np_image dtype)
    | None => mret np_image
    end;
  match writer with
  | nib_writer =>
      extern
        (E_NibIO_save_img filename np_image metadata use_original_ornt
           channels_axis kwargs)
        (NibIO_save_img filename np_image metadata use_original_ornt
           channels_axis kwargs)
  | itk_writer =>
      extern
        (E_ItkIO_save_img filename np_image metadata use_original_ornt
           channels_axis kwargs)
        (ItkIO_save_img filename np_image metadata use_original_ornt
           channels_axis kwargs)
  end.

(** ** [save_dir] (read_save.py, lines 93-100) *)

Definition save_dir `{Env} (dirname : Path) (np_image : Array)
    (metadata : Metadata) (use_original_ornt : bool) (dtype : option DType)
    (channels_axis : option Z) (parents allow_dcm_reorient : bool)
    (kwargs : Kwargs) : M unit :=
  np_image ←
    match dtype with
    | Some dtype => compute (astype np_image dtype)
    | None => mret np_image
    end;
  extern
    (E_ItkIO_save_dcm_dir dirname np_image metadata use_original_ornt
       channels_axis parents allow_dcm_reorient kwargs)
    (ItkIO_save_dcm_dir dirname np_image metadata use_original_ornt
       channels_axis parents allow_dcm_reorient kwargs).

(** ** Observations on runs *)

(** The outcome of a run and the calls it made. *)
Definition outcome `{Env} {A : Type}
    (r : Result (Exn ExtExn) A * World * list Call) : Result (Exn ExtExn) A :=
  r.1.1.
Definition calls `{Env} {A : Type}
    (r : Result (Exn ExtExn) A * World * list Call) : list Call :=
  r.2.

(** The backend class a recorded call belongs to, if any. *)
Definition backend_of `{Env} (e : Event) : option Backend :=
  match e with
  | E_NibIO_read_img _ _ _ _ _ | E_NibIO_save_img _ _ _ _ _ _ => Some NibIO
  | E_ItkIO_read_img _ _ _ _ _ | E_ItkIO_save_img _ _ _ _ _ _
  | E_ItkIO_save_dcm_dir _ _ _ _ _ _ _ _ => Some ItkIO
  | E_PdcmIO_read_img _ _ _ _ => Some PdcmIO
  | E_is_nifti _ _ | E_Path_mkdir _ _ _ => None
  end.

(** The array handed over, when the call is one to a backend writer. *)
Definition written_array `{Env} (e : Event) : option Array :=
  match e with
  | E_NibIO_save_img _ a _ _ _ _ | E_ItkIO_save_img _ a _ _ _ _
  | E_ItkIO_save_dcm_dir _ a _ _ _ _ _ _ => Some a
  | _ => None
  end.

(** The orientation handed over, when the call is one to a reader that
    takes one. *)
Definition read_ornt `{Env} (e : Event) : option (option string) :=
  match e with
  | E_NibIO_read_img _ o _ _ _ | E_ItkIO_read_img _ o _ _ _ => Some o
  | _ => None
  end.

(** Whether the call consults the format sniffer. *)
Definition is_sniff `{Env} (e : Event) : bool :=
  match e with
  | E_is_nifti _ _ => true
  | _ => false
  end.

(** Whether the call creates a directory. *)
Definition is_mkdir `{Env} (e : Event) : bool :=
  match e with
  | E_Path_mkdir _ _ _ => true
  | _ => false
  end.

(** A computation that happens after the call [c] was made. *)
Definition after `{Env} {A : Type} (c : Call)
    (r : Result (Exn ExtExn) A * World * list Call) :
    Result (Exn ExtExn) A * World * list Call :=
  (r.1, c :: r.2).

(** ** The dispatch contract in the words of the specification *)

(** Post-processing (spec 4.1, 4.2): "if an output numeric type was
    requested, cast the array to it". *)
Definition cast `{Env} (np_image : Array) (dtype : option DType) : M Array :=
  match dtype with
  | Some d => compute (astype np_image d)
  | None => mret np_image
  end.

(** The delegated read of one backend, the world given. *)
Definition backend_read `{Env} (reader : Reader) (input_path : Path)
    (ornt : option string) (header : bool) (channels_axis : option Z)
    (kwargs : Kwargs) : World -> (ExtExn + Array * Metadata) * World :=
  match reader with
  | nib_reader => NibIO_read_img input_path ornt header channels_axis kwargs
  | itk_reader => ItkIO_read_img input_path ornt header channels_axis kwargs
  | pdcm_reader => PdcmIO_read_img input_path header channels_axis kwargs
  end.

(** Reading through a given backend (spec 4.1): the requested orientation
    is converted for the NIfTI backend and passed unchanged to the generic
    one, the DICOM backend takes none; the array that comes back is cast,
    the metadata returned as it is. *)
Definition read_via `{Env} (reader : Reader) (input_path : Path)
    (desired_ornt : option string) (dtype : option DType) (header : bool)
    (channels_axis : option Z) (kwargs : Kwargs) : M (Array * Metadata) :=
  match reader with
  | nib_reader =>
      ornt ← compute (inv_axcodes desired_ornt);
      r ← extern
            (E_NibIO_read_img input_path ornt header channels_axis kwargs)
            (NibIO_read_img input_path ornt header channels_axis kwargs);
      np_image ← cast r.1 dtype;
      mret (np_image, r.2)
  | itk_reader =>
      r ← extern
            (E_ItkIO_read_img input_path desired_ornt header channels_axis
               kwargs)
            (ItkIO_read_img input_path desired_ornt header channels_axis
               kwargs);
      np_image ← cast r.1 dtype;
      mret (np_image, r.2)
  | pdcm_reader =>
      r ← extern (E_PdcmIO_read_img input_path header channels_axis kwargs)
            (PdcmIO_read_img input_path header channels_axis kwargs);
      np_image ← cast r.1 dtype;
      mret (np_image, r.2)
  end.

(** The delegated write of one file backend. *)
Definition backend_write `{Env} (writer : Writer) (filename : Path)
    (np_image : Array) (metadata : Metadata) (use_original_ornt : bool)
    (channels_axis : option Z) (kwargs : Kwargs) : M unit :=
  match writer with
  | nib_writer =>
      extern
        (E_NibIO_save_img filename np_image metadata use_original_ornt
           channels_axis kwargs)
        (NibIO_save_img filename np_image metadata use_original_ornt
           channels_axis kwargs)
  | itk_writer =>
      extern
        (E_ItkIO_save_img filename np_image metadata use_original_ornt
           channels_axis kwargs)
        (ItkIO_save_img filename np_image metadata use_original_ornt
           channels_axis kwargs)
  end.

(** Directory creation (spec 4.2): "if a directory-creation flag is set,
    the destination's parent directory is created", with [exist_ok=True]. *)
Definition make_parent `{Env} (filename : Path) (mkdir parents : bool) :
    M unit :=
  if mkdir
  then extern (E_Path_mkdir (Path_parent filename) parents true)
         (Path_mkdir (Path_parent filename) parents true)
  else mret tt.

(** Saving through a given file backend (spec 4.2): directory creation,
    then the cast, then the delegated write. *)
Definition write_via `{Env} (writer : Writer) (filename : Path)
    (np_image : Array) (metadata : Metadata) (use_original_ornt : bool)
    (dtype : option DType) (channels_axis : option Z) (mkdir parents : bool)
    (kwargs : Kwargs) : M unit :=
  make_parent filename mkdir parents;;
  np_image ← cast np_image dtype;
  backend_write writer filename np_image metadata use_original_ornt
    channels_axis kwargs.

(** The record of a delegated read and of a delegated write. *)
Definition read_event `{Env} (reader : Reader) (input_path : Path)
    (ornt : option string) (header : bool) (channels_axis : option Z)
    (kwargs : Kwargs) : Event :=
  match reader with
  | nib_reader => E_NibIO_read_img input_path ornt header channels_axis kwargs
  | itk_reader => E_ItkIO_read_img input_path ornt header channels_axis kwargs
  | pdcm_reader => E_PdcmIO_read_img input_path header channels_axis kwargs
  end.

Definition write_event `{Env} (writer : Writer) (filename : Path)
    (np_image : Array) (metadata : Metadata) (use_original_ornt : bool)
    (channels_axis : option Z) (kwargs : Kwargs) : Event :=
  match writer with
  | nib_writer =>
      E_NibIO_save_img filename np_image metadata use_original_ornt
        channels_axis kwargs
  | itk_writer =>
      E_ItkIO_save_img filename np_image metadata use_original_ornt
        channels_axis kwargs
  end.

(** What [np_image.astype(dtype, copy=False) if dtype is not None] gives. *)
Definition cast_result `{Env} (np_image : Array) (dtype : option DType) :
    ExtExn + Array :=
  match dtype with
  | Some d => astype np_image d
  | None => inr np_image
  end.

(** The orientation a reader is handed (spec 4.1, cross-convention
    adaptation). *)
Definition adapted_ornt `{Env} (reader : Reader)
    (desired_ornt : option string) : ExtExn + option string :=
  match reader with
  | nib_reader => inv_axcodes desired_ornt
  | _ => inr desired_ornt
  end.

(** Tokens accepted as an explicit backend by [read_img] and by [save_img]. *)
Definition read_tokens : list string := ["nib"; "itk"; "pdcm"; "pydicom"].
Definition save_tokens : list string := ["nib"; "itk"].

(** ** The orientation converter *)

Module ConvertNibItk.

(** Modelled from the spec: the "small alphabet of axis-direction letters"
    of an orientation code is not spelled out by the sources at hand; it is
    taken to be the two directions of each of the three anatomical axes
    (right/left, anterior/posterior, superior/inferior), as in the example
    ['RAS'] of the specification. *)
Definition axis_letters : list ascii :=
  ["R"; "L"; "A"; "P"; "S"; "I"]%char.

(** A code over the supported alphabet. *)
Definition supported (axcodes : string) : bool :=
  forallb (λ c, bool_decide (c ∈ axis_letters))
    (list_ascii_of_string axcodes).

(** Modelled from the spec: [inv_axcodes] lives in
    medio/metadata/convert_nib_itk.py, which is not among the sources.  The
    specification says that the two backends "use inverted axis-sign
    conventions for orientation codes" and that the converter maps a code
    to the other convention with its "axis codes inverted": every letter
    is replaced by the letter of the opposite direction on the same axis.
    The specification is silent on letters outside the alphabet; they are
    rejected here. *)
Definition inv_axcode (c : ascii) : option ascii :=
  if Ascii.eqb c "R" then Some "L"%char
  else if Ascii.eqb c "L" then Some "R"%char
  else if Ascii.eqb c "A" then Some "P"%char
  else if Ascii.eqb c "P" then Some "A"%char
  else if Ascii.eqb c "S" then Some "I"%char
  else if Ascii.eqb c "I" then Some "S"%char
  else None.

(** Modelled from the spec: the conversion of a whole code, letter by
    letter (see [inv_axcode]). *)
Fixpoint inv_axcodes (axcodes : string) : option string :=
  match axcodes with
  | EmptyString => Some EmptyString
  | String c rest =>
      match inv_axcode c, inv_axcodes rest with
      | Some c', Some rest' => Some (String c' rest')
      | _, _ => None
      end
  end.

End ConvertNibItk.

(** ** A file system for pathlib *)

(** A model of the part of Python's [pathlib] and [os] that [save_img]
    relies on, used to run the facade on concrete inputs and to show that
    the contract assumed of [Path.mkdir] is one that a file system meets. *)
Module Pathlib.

(** A pure path: its components, innermost first, the root being [[]]:
    [/data/scans/a.nii] is [["a.nii"; "scans"; "data"]]. *)
Abbreviation PurePath := (list string).

(** [PurePath.parent]; the root is its own parent. *)
Definition parent (p : PurePath) : PurePath := tail p.

Inductive Node (C : Type) : Type :=
| Dir
| File (content : C).
Arguments Dir {C}.
Arguments File {C} content.

Inductive OSError : Type :=
| FileExistsError
| FileNotFoundError
| NotADirectoryError
| IsADirectoryError.

Section FS.
Context {C : Type}.

(** Path resolution: every proper ancestor has to be a directory. *)
Fixpoint stat (p : PurePath) (fs : gmap PurePath (Node C)) :
    OSError + Node C :=
  match p with
  | [] => inr Dir
  | _ :: up =>
      match stat up fs with
      | inr Dir =>
          match fs !! p with
          | Some n => inr n
          | None => inl FileNotFoundError
          end
      | inr (File _) => inl NotADirectoryError
      | inl e => inl e
      end
  end.

(** [Path.is_dir]: false as well when the path cannot be resolved. *)
Definition is_dir (p : PurePath) (fs : gmap PurePath (Node C)) : bool :=
  match stat p fs with
  | inr Dir => true
  | _ => false
  end.

(** [Path.is_file] *)
Definition is_file (p : PurePath) (fs : gmap PurePath (Node C)) : bool :=
  match stat p fs with
  | inr (File _) => true
  | _ => false
  end.

(** [os.mkdir]: creates one directory, in an existing directory. *)
Definition os_mkdir (p : PurePath) (fs : gmap PurePath (Node C)) :
    OSError + gmap PurePath (Node C) :=
  match p with
  | [] => inl FileExistsError
  | _ :: up =>
      match stat up fs with
      | inr Dir =>
          match fs !! p with
          | Some _ => inl FileExistsError
          | None => inr (<[p := Dir]> fs)
          end
      | inr (File _) => inl NotADirectoryError
      | inl e => inl e
      end
  end.

(** [Path.mkdir(parents=False, exist_ok)]: [os.mkdir], whose
    [FileNotFoundError] is raised again and whose other errors are
    swallowed when [exist_ok] holds and the path is a directory. *)
Definition mkdir_one (p : PurePath) (exist_ok : bool)
    (fs : gmap PurePath (Node C)) :
    (OSError + unit) * gmap PurePath (Node C) :=
  match os_mkdir p fs with
  | inr fs' => (inr tt, fs')
  | inl FileNotFoundError => (inl FileNotFoundError, fs)
  | inl e => if exist_ok && is_dir p fs then (inr tt, fs) else (inl e, fs)
  end.

(** [Path.mkdir(parents, exist_ok)]: on [FileNotFoundError] with
    [parents] set, the parent is made first (with [parents=True,
    exist_ok=True]) and the directory itself after it. *)
Fixpoint mkdir (p : PurePath) (parents exist_ok : bool)
    (fs : gmap PurePath (Node C)) :
    (OSError + unit) * gmap PurePath (Node C) :=
  match os_mkdir p fs with
  | inr fs' => (inr tt, fs')
  | inl FileNotFoundError =>
      match p with
      | [] => (inl FileNotFoundError, fs)
      | _ :: up =>
          if parents then
            match mkdir up true true fs with
            | (inr _, fs1) => mkdir_one p exist_ok fs1
            | (inl e, fs1) => (inl e, fs1)
            end
          else (inl FileNotFoundError, fs)
      end
  | inl e => if exist_ok && is_dir p fs then (inr tt, fs) else (inl e, fs)
  end.

(** Nothing but directories on the way to [p]: no file is stored at an
    ancestor of [p], nor at [p] itself. *)
Fixpoint unobstructed (p : PurePath) (fs : gmap PurePath (Node C)) : bool :=
  match p with
  | [] => true
  | _ :: up =>
      unobstructed up fs &&
      match fs !! p with
      | Some (File _) => false
      | _ => true
      end
  end.

End FS.

End Pathlib.

(** ** Arrays for numpy *)

(** A model of the part of numpy that the facade relies on: an array knows
    its dtype, and [astype] yields an array of the requested dtype with the
    items converted (integers wrap around). *)
Module Numpy.

Inductive dtype : Type := uint8 | int16 | int32.

Record ndarray : Type := MkArray { dtype_of : dtype; items : list Z }.

Definition convert (d : dtype) (z : Z) : Z :=
  match d with
  | uint8 => z mod 2 ^ 8
  | int16 => (z + 2 ^ 15) mod 2 ^ 16 - 2 ^ 15
  | int32 => (z + 2 ^ 31) mod 2 ^ 32 - 2 ^ 31
  end%Z.

Definition astype (a : ndarray) (d : dtype) : ndarray :=
  MkArray d (convert d <$> items a).

End Numpy.

(** ** An in-memory environment *)

(** Collaborators over the file system of [Pathlib] and the arrays of
    [Numpy], simple enough to evaluate: the facade can be run on them, and
    the general statements below instantiated.  A file holds an array and
    its metadata (here: the orientation code it was stored with). *)
Module InMemory.
Import Pathlib.

Inductive error : Type :=
| OS (e : OSError)
| KeyError (key : string).

Definition ends_with (suffix s : string) : bool :=
  String.prefix (String.rev suffix) (String.rev s).

Definition nifti_name (p : PurePath) : bool :=
  match p with
  | [] => false
  | name :: _ => ends_with ".nii" name || ends_with ".nii.gz" name
  end.

Definition mem_is_nifti (p : PurePath) (check_exist : option bool)
    (fs : gmap PurePath (Node (Numpy.ndarray * string))) :
    (error + bool) * gmap PurePath (Node (Numpy.ndarray * string)) :=
  (inr (if default true check_exist && negb (is_file p fs) then false
        else nifti_name p), fs).

Definition mem_inv_axcodes (axcodes : option string) : error + option string :=
  match axcodes with
  | None => inr None
  | Some code =>
      match ConvertNibItk.inv_axcodes code with
      | Some code' => inr (Some code')
      | None => inl (KeyError code)
      end
  end.

Definition load (p : PurePath)
    (fs : gmap PurePath (Node (Numpy.ndarray * string))) :
    (error + Numpy.ndarray * string) * gmap PurePath (Node (Numpy.ndarray * string)) :=
  match stat p fs with
  | inr (File c) => (inr c, fs)
  | inr Dir => (inl (OS IsADirectoryError), fs)
  | inl e => (inl (OS e), fs)
  end.

Definition store (p : PurePath) (a : Numpy.ndarray) (md : string)
    (fs : gmap PurePath (Node (Numpy.ndarray * string))) :
    (error + unit) * gmap PurePath (Node (Numpy.ndarray * string)) :=
  match stat (parent p) fs with
  | inr Dir =>
      if is_dir p fs then (inl (OS IsADirectoryError), fs)
      else (inr tt, <[p := File (a, md)]> fs)
  | inr (File _) => (inl (OS NotADirectoryError), fs)
  | inl e => (inl (OS e), fs)
  end.

Definition mem_mkdir (p : PurePath) (parents exist_ok : bool)
    (fs : gmap PurePath (Node (Numpy.ndarray * string))) :
    (error + unit) * gmap PurePath (Node (Numpy.ndarray * string)) :=
  match Pathlib.mkdir p parents exist_ok fs with
  | (inr u, fs') => (inr u, fs')
  | (inl e, fs') => (inl (OS e), fs')
  end.

Definition save_dcm_dir (d : PurePath) (a : Numpy.ndarray) (md : string)
    (parents : bool) (fs : gmap PurePath (Node (Numpy.ndarray * string))) :
    (error + unit) * gmap PurePath (Node (Numpy.ndarray * string)) :=
  match mem_mkdir d parents true fs with
  | (inr _, fs') => store ("0.dcm" :: d) a md fs'
  | (inl e, fs') => (inl e, fs')
  end.

Definition env : Env := {|
  Path := PurePath;
  DType := Numpy.dtype;
  Array := Numpy.ndarray;
  Metadata := string;
  Kwargs := list (string * string);
  ExtExn := error;
  World := gmap PurePath (Node (Numpy.ndarray * string));
  is_nifti := mem_is_nifti;
  inv_axcodes := mem_inv_axcodes;
  astype := λ a d, inr (Numpy.astype a d);
  Path_parent := parent;
  Path_mkdir := mem_mkdir;
  NibIO_read_img := λ p _ _ _ _, load p;
  ItkIO_read_img := λ p _ _ _ _, load p;
  PdcmIO_read_img := λ p _ _ _, load ("0.dcm" :: p);
  NibIO_save_img := λ p a md _ _ _, store p a md;
  ItkIO_save_img := λ p a md _ _ _, store p a md;
  ItkIO_save_dcm_dir := λ d a md _ _ parents _ _, save_dcm_dir d a md parents
|}.

(** A small volume and a disk holding it in two formats and as a series. *)
Definition scan : Numpy.ndarray := Numpy.MkArray Numpy.int16 [0; 300; -1; 70000]%Z.

Definition disk : gmap PurePath (Node (Numpy.ndarray * string)) :=
  <[ ["0.dcm"; "series"; "data"] := File (scan, "LPS") ]>
  (<[ ["series"; "data"] := Dir ]>
  (<[ ["ct.mha"; "data"] := File (scan, "LPS") ]>
  (<[ ["brain.nii.gz"; "data"] := File (scan, "RAS") ]>
  (<[ ["data"] := Dir ]> ∅)))).

End InMemory.

(** ** The format sniffer *)

Module Files.

(** Modelled from the spec: [is_nifti] lives in medio/utils/files.py, which
    is not among the sources.  The specification describes it as the sniffer
    that "decides 'is this NIfTI' from a path's suffix (and existence ...)",
    with the signature [is_target_family(path, require_exists) -> boolean],
    and says that [save_img] runs it "in 'do not require the file to already
    exist' mode"; [read_img] passes no mode, so the other one applies, in
    which the file is required to exist.  The verdict is given here as a
    function of the two facts the sniffer looks at: whether the suffix of
    the path is one of the NIfTI family, and whether the path is an existing
    file. *)
Definition is_nifti (suffix_matches is_file : bool)
    (check_exist : option bool) : bool :=
  if default true check_exist && negb is_file then false else suffix_matches.

End Files.

(** ** An in-memory environment with a checked cast *)

(** The in-memory environment again, with an [astype] that refuses an item
    that does not fit the requested dtype instead of wrapping it around, so
    that runs in which the cast raises can be evaluated too. *)
Module Checked.
Import Pathlib.

Inductive error : Type :=
| Base (e : InMemory.error)
| OverflowError (item : Z).

Definition fits (d : Numpy.dtype) (z : Z) : bool := Z.eqb (Numpy.convert d z) z.

Definition checked_astype (a : Numpy.ndarray) (d : Numpy.dtype) :
    error + Numpy.ndarray :=
  match List.find (λ z, negb (fits d z)) (Numpy.items a) with
  | Some z => inl (OverflowError z)
  | None => inr (Numpy.astype a d)
  end.

Definition lift_error {A W : Type} (r : (InMemory.error + A) * W) :
    (error + A) * W :=
  match r with
  | (inl e, w) => (inl (Base e), w)
  | (inr a, w) => (inr a, w)
  end.

Definition env : Env := {|
  Path := PurePath;
  DType := Numpy.dtype;
  Array := Numpy.ndarray;
  Metadata := string;
  Kwargs := list (string * string);
  ExtExn := error;
  World := gmap PurePath (Node (Numpy.ndarray * string));
  is_nifti := λ p check_exist fs,
    lift_error (InMemory.mem_is_nifti p check_exist fs);
  inv_axcodes := λ axcodes,
    match InMemory.mem_inv_axcodes axcodes with
    | inl e => inl (Base e)
    | inr code => inr code
    end;
  astype := checked_astype;
  Path_parent := parent;
  Path_mkdir := λ p parents exist_ok fs,
    lift_error (InMemory.mem_mkdir p parents exist_ok fs);
  NibIO_read_img := λ p _ _ _ _ fs, lift_error (InMemory.load p fs);
  ItkIO_read_img := λ p _ _ _ _ fs, lift_error (InMemory.load p fs);
  PdcmIO_read_img := λ p _ _ _ fs,
    lift_error (InMemory.load ("0.dcm" :: p) fs);
  NibIO_save_img := λ p a md _ _ _ fs, lift_error (InMemory.store p a md fs);
  ItkIO_save_img := λ p a md _ _ _ fs, lift_error (InMemory.store p a md fs);
  ItkIO_save_dcm_dir := λ d a md _ _ parents _ _ fs,
    lift_error (InMemory.save_dcm_dir d a md parents fs)
|}.

End Checked.

(** ** The world a run leaves *)

Definition final `{Env} {A : Type}
    (r : Result (Exn ExtExn) A * World * list Call) : World :=
  r.1.2.

(** ** Proof automation *)

(** Unfolds the monad down to pairs and case distinctions. *)
Ltac unfold_M :=
  unfold read_via, write_via, make_parent, backend_write, cast, after,
    outcome, calls, mbind, mret, M_bind, M_ret, raise, extern,
    compute, propagate in *.

(** Case distinction on what the collaborators return, innermost call
    first, until none is left. *)
Ltac by_cases :=
  repeat (simpl in *; try done; try (simplify_eq; done);
          match goal with
          | |- context [match ?x with _ => _ end] =>
              lazymatch x with
              | context [match _ with _ => _ end] => fail
              | _ => destruct x eqn:?
              end
          end).

(** Membership in a record of calls that has been computed. *)
Ltac in_calls :=
  repeat match goal with
         | H : _ ∈ [] |- _ => by apply elem_of_nil in H
         | H : _ ∈ _ :: _ |- _ => apply elem_of_cons in H as [-> | H]
         | H : _ ∈ _ ++ _ |- _ => apply elem_of_app in H as [H | H]
         end.

(** * Properties *)

(** ** Running the facade on an explicit or an absent selector *)

Section Selection.
Context `{Env}.

Lemma token_nib (backend : string) :
  backend ∉ save_tokens → String.eqb backend "nib" = false.
Proof.
  unfold save_tokens. rewrite !not_elem_of_cons, String.eqb_neq. tauto.
Qed.

Lemma token_itk (backend : string) :
  backend ∉ save_tokens → String.eqb backend "itk" = false.
Proof.
  unfold save_tokens. rewrite !not_elem_of_cons, String.eqb_neq. tauto.
Qed.

Lemma token_pdcm (backend : string) :
  backend ∉ read_tokens →
  String.eqb backend "pdcm" || String.eqb backend "pydicom" = false.
Proof.
  unfold read_tokens.
  rewrite !not_elem_of_cons, orb_false_iff, !String.eqb_neq. tauto.
Qed.

(** [read_img] with backend ['nib'], ['itk'] or a DICOM token and no
    desired orientation is the read through that backend. *)
Lemma read_img_nib input_path desired_ornt dtype header channels_axis kwargs w :
  read_img input_path desired_ornt (Some "nib") dtype header channels_axis
    kwargs w
  = read_via nib_reader input_path desired_ornt dtype header channels_axis
      kwargs w.
Proof. unfold read_img. unfold_M. by_cases. Qed.

Lemma read_img_itk input_path desired_ornt dtype header channels_axis kwargs w :
  read_img input_path desired_ornt (Some "itk") dtype header channels_axis
    kwargs w
  = read_via itk_reader input_path desired_ornt dtype header channels_axis
      kwargs w.
Proof. unfold read_img. unfold_M. by_cases. Qed.

Lemma read_img_pdcm (backend : string) input_path dtype header channels_axis
    kwargs w :
  backend = "pdcm" ∨ backend = "pydicom" →
  read_img input_path None (Some backend) dtype header channels_axis kwargs w
  = read_via pdcm_reader input_path None dtype header channels_axis kwargs w.
Proof. intros [-> | ->]; unfold read_img; unfold_M; by_cases. Qed.

(** [save_img] with backend ['nib'] or ['itk'] is the save through that
    backend. *)
Lemma save_img_nib filename np_image metadata use_original_ornt dtype
    channels_axis mkdir parents kwargs w :
  save_img filename np_image metadata use_original_ornt (Some "nib") dtype
    channels_axis mkdir parents kwargs w
  = write_via nib_writer filename np_image metadata use_original_ornt dtype
      channels_axis mkdir parents kwargs w.
Proof. unfold save_img. unfold_M. by_cases. Qed.

Lemma save_img_itk filename np_image metadata use_original_ornt dtype
    channels_axis mkdir parents kwargs w :
  save_img filename np_image metadata use_original_ornt (Some "itk") dtype
    channels_axis mkdir parents kwargs w
  = write_via itk_writer filename np_image metadata use_original_ornt dtype
      channels_axis mkdir parents kwargs w.
Proof. unfold save_img. unfold_M. by_cases. Qed.

(** With no explicit backend the sniffer is called first, and its verdict
    selects the backend. *)
Lemma read_img_None input_path desired_ornt dtype header channels_axis
    kwargs w :
  read_img input_path desired_ornt None dtype header channels_axis kwargs w
  = match is_nifti input_path None w with
    | (inl x, w1) =>
        (Raise (Propagated x), w1, [MkCall (E_is_nifti input_path None) w])
    | (inr nifti, w1) =>
        after (MkCall (E_is_nifti input_path None) w)
          (read_via (if nifti then nib_reader else itk_reader) input_path
             desired_ornt dtype header channels_axis kwargs w1)
    end.
Proof. unfold read_img. unfold_M. by_cases. Qed.

Lemma save_img_None filename np_image metadata use_original_ornt dtype
    channels_axis mkdir parents kwargs w :
  save_img filename np_image metadata use_original_ornt None dtype
    channels_axis mkdir parents kwargs w
  = match is_nifti filename (Some false) w with
    | (inl x, w1) =>
        (Raise (Propagated x), w1,
         [MkCall (E_is_nifti filename (Some false)) w])
    | (inr nifti, w1) =>
        after (MkCall (E_is_nifti filename (Some false)) w)
          (write_via (if nifti then nib_writer else itk_writer) filename
             np_image metadata use_original_ornt dtype channels_axis mkdir
             parents kwargs w1)
    end.
Proof. unfold save_img. unfold_M. by_cases. Qed.

End Selection.

(** ** The DICOM selector and reorientation *)

Section PdcmRestriction.
Context `{Env}.

(** C2.  [read_img] with the DICOM selector (['pdcm'] or ['pydicom']) and
    a desired orientation that is not [None] raises [NotImplementedError]
    at once: the world is the one it was called in and no collaborator has
    been called.  With desired orientation [None] the call is the read
    through [PdcmIO], whose reader is the first thing called, and whatever
    it ends in is not the facade's [NotImplementedError]. *)
Theorem read_img_pdcm_reorientation (backend : string) input_path dtype
    header channels_axis kwargs w :
  backend = "pdcm" ∨ backend = "pydicom" →
  (∀ ornt : string,
     read_img input_path (Some ornt) (Some backend) dtype header
       channels_axis kwargs w
     = (Raise (NotImplementedError pdcm_reorient_msg), w, []))
  ∧ read_img input_path None (Some backend) dtype header channels_axis
      kwargs w
    = read_via pdcm_reader input_path None dtype header channels_axis
        kwargs w
  ∧ calls (read_img input_path None (Some backend) dtype header
             channels_axis kwargs w)
    = [MkCall (E_PdcmIO_read_img input_path header channels_axis kwargs) w]
  ∧ ∀ msg,
      outcome (read_img input_path None (Some backend) dtype header
                 channels_axis kwargs w)
      ≠ Raise (NotImplementedError msg).
Proof.
  intros Hb. split; [| rewrite (read_img_pdcm _ _ _ _ _ _ _ Hb); split; [done |]].
  - intros ornt. by destruct Hb as [-> | ->].
  - split; [| intros msg]; unfold_M; by_cases.
Qed.

End PdcmRestriction.

Lemma read_img_pdcm_reorientation_witness :
  read_img (H := InMemory.env) ["series"; "data"] (Some "RAS") (Some "pdcm")
    None false (Some (-1)%Z) [] InMemory.disk
  = (Raise (NotImplementedError pdcm_reorient_msg), InMemory.disk, [])
  ∧ outcome (read_img (H := InMemory.env) ["series"; "data"] None
               (Some "pdcm") None false (Some (-1)%Z) [] InMemory.disk)
    = Ok (InMemory.scan, "LPS").
Proof.
  destruct (read_img_pdcm_reorientation (H := InMemory.env) "pdcm"
              ["series"; "data"] None false (Some (-1)%Z) [] InMemory.disk)
    as (Hraise & _); [by left |].
  split; [apply Hraise | reflexivity].
Defined.

(** ** Unknown backend tokens *)

Section UnknownToken.
Context `{Env}.

(** C3.  A backend token that is not among the accepted literals is
    refused with [ValueError] before anything else happens: the world is
    the one the facade was called in and no collaborator has been called,
    neither the sniffer nor a backend nor, in [save_img], [Path.mkdir],
    whatever the [mkdir] flag.  [save_img] accepts ['nib'] and ['itk'],
    [read_img] also ['pdcm'] and ['pydicom']. *)
Theorem unknown_backend_rejected (backend : string) w :
  backend ∉ save_tokens →
  (∀ filename np_image metadata use_original_ornt dtype channels_axis mkdir
     parents kwargs,
     save_img filename np_image metadata use_original_ornt (Some backend)
       dtype channels_axis mkdir parents kwargs w
     = (Raise (ValueError save_backend_msg), w, []))
  ∧ (backend ∉ read_tokens →
     ∀ input_path desired_ornt dtype header channels_axis kwargs,
       read_img input_path desired_ornt (Some backend) dtype header
         channels_axis kwargs w
       = (Raise (ValueError read_backend_msg), w, [])).
Proof.
  intros Hs. split.
  - intros. unfold save_img. simpl.
    by rewrite (token_nib _ Hs), (token_itk _ Hs).
  - intros Hr **. unfold read_img. simpl.
    by rewrite (token_nib _ Hs), (token_itk _ Hs), (token_pdcm _ Hr).
Qed.

End UnknownToken.

Lemma unknown_backend_rejected_witness :
  save_img (H := InMemory.env) ["x.nii"; "new"; "data"] InMemory.scan "RAS"
    true (Some "bogus") None None true true [] InMemory.disk
  = (Raise (ValueError save_backend_msg), InMemory.disk, [])
  ∧ read_img (H := InMemory.env) ["brain.nii.gz"; "data"] None (Some "bogus")
      None false (Some (-1)%Z) [] InMemory.disk
    = (Raise (ValueError read_backend_msg), InMemory.disk, []).
Proof.
  assert (Hs : "bogus" ∉ save_tokens) by (apply (bool_decide_unpack _); reflexivity).
  assert (Hr : "bogus" ∉ read_tokens) by (apply (bool_decide_unpack _); reflexivity).
  destruct (unknown_backend_rejected (H := InMemory.env) "bogus" InMemory.disk Hs)
    as [Hsave Hread].
  split; [apply Hsave | apply (Hread Hr)].
Defined.

(** ** Normal forms of a read and of a save through one backend *)

Section NormalForms.
Context `{Env}.

(** A read through one backend: the orientation is adapted, the reader
    called once, in the world the read started in, and its array cast. *)
Lemma read_via_run reader input_path desired_ornt dtype header channels_axis
    kwargs w :
  read_via reader input_path desired_ornt dtype header channels_axis kwargs w
  = match adapted_ornt reader desired_ornt with
    | inl x => (Raise (Propagated x), w, [])
    | inr ornt =>
        let c :=
          MkCall
            (read_event reader input_path ornt header channels_axis kwargs) w
        in
        match
          backend_read reader input_path ornt header channels_axis kwargs w
        with
        | (inl x, w1) => (Raise (Propagated x), w1, [c])
        | (inr (raw, metadata), w1) =>
            match cast_result raw dtype with
            | inl x => (Raise (Propagated x), w1, [c])
            | inr np_image => (Ok (np_image, metadata), w1, [c])
            end
        end
    end.
Proof.
  destruct reader; unfold adapted_ornt, backend_read, cast_result;
    unfold_M; by_cases.
Qed.

(** A save through one backend: the directory is made if asked for, the
    array cast, and the writer called once, in the world that [Path.mkdir]
    left. *)
Lemma write_via_run writer filename np_image metadata use_original_ornt dtype
    channels_axis (mkdir : bool) parents kwargs w :
  write_via writer filename np_image metadata use_original_ornt dtype
    channels_axis mkdir parents kwargs w
  = let made :=
      if mkdir
      then [MkCall (E_Path_mkdir (Path_parent filename) parents true) w]
      else [] in
    match
      (if mkdir then Path_mkdir (Path_parent filename) parents true w
       else (inr tt, w))
    with
    | (inl x, w1) => (Raise (Propagated x), w1, made)
    | (inr _, w1) =>
        match cast_result np_image dtype with
        | inl x => (Raise (Propagated x), w1, made)
        | inr np_image' =>
            let c :=
              MkCall
                (write_event writer filename np_image' metadata
                   use_original_ornt channels_axis kwargs) w1 in
            match
              match writer with
              | nib_writer =>
                  NibIO_save_img filename np_image' metadata
                    use_original_ornt channels_axis kwargs w1
              | itk_writer =>
                  ItkIO_save_img filename np_image' metadata
                    use_original_ornt channels_axis kwargs w1
              end
            with
            | (r, w2) => (propagate r, w2, made ++ [c])
            end
        end
    end.
Proof. destruct writer, mkdir; unfold cast_result; unfold_M; by_cases. Qed.

(** What [read_img] does for an explicit token, case by case. *)
Lemma read_img_Some (backend : string) input_path desired_ornt dtype header
    channels_axis kwargs w :
  (∃ reader,
     read_img input_path desired_ornt (Some backend) dtype header
       channels_axis kwargs w
     = read_via reader input_path desired_ornt dtype header channels_axis
         kwargs w)
  ∨ (∃ x,
       read_img input_path desired_ornt (Some backend) dtype header
         channels_axis kwargs w
       = (Raise x, w, [])).
Proof.
  destruct (String.eqb backend "nib") eqn:Hnib.
  { apply String.eqb_eq in Hnib as ->. left. eexists. apply read_img_nib. }
  destruct (String.eqb backend "itk") eqn:Hitk.
  { apply String.eqb_eq in Hitk as ->. left. eexists. apply read_img_itk. }
  destruct (String.eqb backend "pdcm" || String.eqb backend "pydicom")
    eqn:Hpdcm.
  - destruct desired_ornt as [ornt |].
    + right. eexists. unfold read_img. simpl.
      by rewrite Hnib, Hitk, Hpdcm.
    + left. exists pdcm_reader. apply read_img_pdcm.
      apply orb_true_iff in Hpdcm as [Hp | Hp];
        apply String.eqb_eq in Hp; auto.
  - right. eexists. unfold read_img. simpl.
    by rewrite Hnib, Hitk, Hpdcm.
Qed.

(** What [save_img] does for an explicit token, case by case. *)
Lemma save_img_Some (backend : string) filename np_image metadata
    use_original_ornt dtype channels_axis mkdir parents kwargs w :
  (∃ writer,
     save_img filename np_image metadata use_original_ornt (Some backend)
       dtype channels_axis mkdir parents kwargs w
     = write_via writer filename np_image metadata use_original_ornt dtype
         channels_axis mkdir parents kwargs w)
  ∨ save_img filename np_image metadata use_original_ornt (Some backend)
      dtype channels_axis mkdir parents kwargs w
    = (Raise (ValueError save_backend_msg), w, []).
Proof.
  destruct (String.eqb backend "nib") eqn:Hnib.
  { apply String.eqb_eq in Hnib as ->. left. eexists. apply save_img_nib. }
  destruct (String.eqb backend "itk") eqn:Hitk.
  { apply String.eqb_eq in Hitk as ->. left. eexists. apply save_img_itk. }
  right. unfold save_img. simpl. by rewrite Hnib, Hitk.
Qed.

(** The calls of a read through one backend: none consults the sniffer,
    each is made to that backend, in the world the read started in, and
    with the adapted orientation. *)
Lemma read_via_calls reader input_path desired_ornt dtype header
    channels_axis kwargs w c :
  c ∈ calls (read_via reader input_path desired_ornt dtype header
               channels_axis kwargs w) →
  ∃ ornt,
    adapted_ornt reader desired_ornt = inr ornt
    ∧ c = MkCall
            (read_event reader input_path ornt header channels_axis kwargs) w.
Proof.
  rewrite read_via_run. unfold calls.
  destruct (adapted_ornt reader desired_ornt) as [x | ornt]; simpl;
    [intros; in_calls |].
  intros Hc. exists ornt. split; [done |].
  destruct (backend_read _ _ _ _ _ _ _) as [[x | [raw metadata]] w1];
    simpl in Hc; [by in_calls |].
  destruct (cast_result raw dtype); simpl in Hc; by in_calls.
Qed.

(** The calls of a save through one backend: a [Path.mkdir] or a call to
    the writer, with the array that the cast gave. *)
Lemma write_via_calls writer filename np_image metadata use_original_ornt
    dtype channels_axis mkdir parents kwargs w c :
  c ∈ calls (write_via writer filename np_image metadata use_original_ornt
               dtype channels_axis mkdir parents kwargs w) →
  (mkdir = true
   ∧ c = MkCall (E_Path_mkdir (Path_parent filename) parents true) w)
  ∨ (∃ np_image' w1,
       cast_result np_image dtype = inr np_image'
       ∧ (if mkdir
          then Path_mkdir (Path_parent filename) parents true w
          else (inr tt, w)) = (inr tt, w1)
       ∧ c = MkCall
               (write_event writer filename np_image' metadata
                  use_original_ornt channels_axis kwargs) w1).
Proof.
  rewrite write_via_run. unfold calls. cbv zeta.
  destruct (if mkdir then _ else _) as [[x | []] w1] eqn:Hmk; simpl.
  { destruct mkdir; intros Hc; in_calls. by left. }
  destruct (cast_result np_image dtype) as [x | np_image'] eqn:Hcast; simpl.
  { destruct mkdir; intros Hc; in_calls. by left. }
  destruct (match writer with nib_writer => _ | itk_writer => _ end)
    as [r w2]; simpl.
  intros Hc. destruct mkdir; in_calls; [by left | |]; right; eauto.
Qed.

End NormalForms.

(** ** The shape of every run *)

Section Shape.
Context `{Env}.

(** A run of [read_img]: calls to the sniffer, and then either an
    exception or the read through one backend. *)
Lemma read_img_shape input_path desired_ornt backend dtype header
    channels_axis kwargs w :
  ∃ pre,
    Forall (λ c, is_sniff (ev c) = true ∧ backend = None) pre
    ∧ ((∃ x w1,
          read_img input_path desired_ornt backend dtype header channels_axis
            kwargs w = (Raise x, w1, pre))
       ∨ (∃ reader w1,
            read_img input_path desired_ornt backend dtype header
              channels_axis kwargs w
            = (let r := read_via reader input_path desired_ornt dtype header
                          channels_axis kwargs w1 in
               (r.1, pre ++ r.2)))).
Proof.
  destruct backend as [backend |].
  - exists []. split; [constructor |].
    destruct (read_img_Some backend input_path desired_ornt dtype header
                channels_axis kwargs w) as [[reader Hr] | [x Hx]].
    + right. exists reader, w. rewrite Hr. simpl. by destruct (read_via _ _ _ _ _ _ _ _) as [[] ?].
    + left. eauto.
  - exists [MkCall (E_is_nifti input_path None) w].
    split; [by repeat constructor |].
    rewrite read_img_None.
    destruct (is_nifti input_path None w) as [[x | nifti] w1]; [left; eauto |].
    right. by exists (if nifti then nib_reader else itk_reader), w1.
Qed.

(** A run of [save_img]: calls to the sniffer, and then either an
    exception or the save through one backend. *)
Lemma save_img_shape filename np_image metadata use_original_ornt backend
    dtype channels_axis mkdir parents kwargs w :
  ∃ pre,
    Forall (λ c, is_sniff (ev c) = true ∧ backend = None) pre
    ∧ ((∃ x w1,
          save_img filename np_image metadata use_original_ornt backend dtype
            channels_axis mkdir parents kwargs w = (Raise x, w1, pre))
       ∨ (∃ writer w1,
            save_img filename np_image metadata use_original_ornt backend
              dtype channels_axis mkdir parents kwargs w
            = (let r := write_via writer filename np_image metadata
                          use_original_ornt dtype channels_axis mkdir
                          parents kwargs w1 in
               (r.1, pre ++ r.2)))).
Proof.
  destruct backend as [backend |].
  - exists []. split; [constructor |].
    destruct (save_img_Some backend filename np_image metadata
                use_original_ornt dtype channels_axis mkdir parents kwargs w)
      as [[writer Hw] | Hx].
    + right. exists writer, w. rewrite Hw. simpl.
      by destruct (write_via _ _ _ _ _ _ _ _ _ _ _) as [[] ?].
    + left. eauto.
  - exists [MkCall (E_is_nifti filename (Some false)) w].
    split; [by repeat constructor |].
    rewrite save_img_None.
    destruct (is_nifti filename (Some false) w) as [[x | nifti] w1];
      [left; eauto |].
    right. by exists (if nifti then nib_writer else itk_writer), w1.
Qed.

(** Every call of [read_img] consults the sniffer, with no backend given,
    or belongs to the read through one backend. *)
Lemma read_img_calls input_path desired_ornt backend dtype header
    channels_axis kwargs w c :
  c ∈ calls (read_img input_path desired_ornt backend dtype header
               channels_axis kwargs w) →
  (is_sniff (ev c) = true ∧ backend = None)
  ∨ ∃ reader w1,
      c ∈ calls (read_via reader input_path desired_ornt dtype header
                   channels_axis kwargs w1).
Proof.
  destruct (read_img_shape input_path desired_ornt backend dtype header
              channels_axis kwargs w)
    as (pre & Hpre & [(x & w1 & ->) | (reader & w1 & ->)]);
    rewrite Forall_forall in Hpre; unfold calls; simpl; intros Hc.
  - left. auto.
  - apply elem_of_app in Hc as [Hc | Hc]; [left; auto | right; eauto].
Qed.

(** Every call of [save_img] consults the sniffer, with no backend given,
    or belongs to the save through one backend. *)
Lemma save_img_calls filename np_image metadata use_original_ornt backend
    dtype channels_axis mkdir parents kwargs w c :
  c ∈ calls (save_img filename np_image metadata use_original_ornt backend
               dtype channels_axis mkdir parents kwargs w) →
  (is_sniff (ev c) = true ∧ backend = None)
  ∨ ∃ writer w1,
      c ∈ calls (write_via writer filename np_image metadata
                   use_original_ornt dtype channels_axis mkdir parents
                   kwargs w1).
Proof.
  destruct (save_img_shape filename np_image metadata use_original_ornt
              backend dtype channels_axis mkdir parents kwargs w)
    as (pre & Hpre & [(x & w1 & ->) | (writer & w1 & ->)]);
    rewrite Forall_forall in Hpre; unfold calls; simpl; intros Hc.
  - left. auto.
  - apply elem_of_app in Hc as [Hc | Hc]; [left; auto | right; eauto].
Qed.

End Shape.

(** ** Selection by suffix *)

(** The in-memory sniffer is the sniffer of the specification, for the
    suffixes [.nii] and [.nii.gz]. *)
Lemma mem_is_nifti_spec p check_exist fs :
  InMemory.mem_is_nifti p check_exist fs
  = (inr (Files.is_nifti (InMemory.nifti_name p) (Pathlib.is_file p fs)
            check_exist), fs).
Proof. reflexivity. Qed.

Section SuffixSelection.
Context `{Env}.

(** The sniffer of the specification: the suffix test of the NIfTI family,
    the test for an existing file, and [is_nifti] answering from the two as
    [Files.is_nifti] says, without touching the world. *)
Variable suffix_matches : Path → bool.
Variable is_file : Path → World → bool.
Hypothesis is_nifti_spec :
  ∀ p check_exist w,
    is_nifti p check_exist w
    = (inr (Files.is_nifti (suffix_matches p) (is_file p w) check_exist), w).

(** C5 (as the code has it).  With [backend=None], [save_img] asks
    [is_nifti] with [check_exist=False] and is the save through [NibIO]
    exactly when the suffix of the path is one of the NIfTI family, through
    [ItkIO] for every other suffix.  [read_img] asks [is_nifti] in its
    default mode, which requires the file to exist: it is the read through
    [NibIO] exactly when the suffix matches and the path is an existing
    file, and through [ItkIO] otherwise, a missing file with a NIfTI suffix
    included.  In both, every backend call of the run goes to the class so
    selected. *)
Theorem suffix_selects_backend (path : Path) w :
  (∀ np_image metadata use_original_ornt dtype channels_axis mkdir parents
     kwargs,
     save_img path np_image metadata use_original_ornt None dtype
       channels_axis mkdir parents kwargs w
     = after (MkCall (E_is_nifti path (Some false)) w)
         (write_via (if suffix_matches path then nib_writer else itk_writer)
            path np_image metadata use_original_ornt dtype channels_axis
            mkdir parents kwargs w))
  ∧ (∀ desired_ornt dtype header channels_axis kwargs,
       read_img path desired_ornt None dtype header channels_axis kwargs w
       = after (MkCall (E_is_nifti path None) w)
           (read_via
              (if suffix_matches path && is_file path w then nib_reader
               else itk_reader)
              path desired_ornt dtype header channels_axis kwargs w))
  ∧ (∀ np_image metadata use_original_ornt dtype channels_axis mkdir parents
       kwargs c b,
       c ∈ calls (save_img path np_image metadata use_original_ornt None
                    dtype channels_axis mkdir parents kwargs w) →
       backend_of (ev c) = Some b →
       b = if suffix_matches path then NibIO else ItkIO)
  ∧ (∀ desired_ornt dtype header channels_axis kwargs c b,
       c ∈ calls (read_img path desired_ornt None dtype header channels_axis
                    kwargs w) →
       backend_of (ev c) = Some b →
       b = if suffix_matches path && is_file path w then NibIO else ItkIO).
Proof.
  assert (Hsave : is_nifti path (Some false) w = (inr (suffix_matches path), w)).
  { rewrite is_nifti_spec. unfold Files.is_nifti. simpl. done. }
  assert (Hread : is_nifti path None w
                  = (inr (suffix_matches path && is_file path w), w)).
  { rewrite is_nifti_spec. unfold Files.is_nifti. simpl.
    by destruct (suffix_matches path), (is_file path w). }
  split; [intros; by rewrite save_img_None, Hsave |].
  split; [intros; by rewrite read_img_None, Hread |].
  split.
  - intros ???????? c b. rewrite save_img_None, Hsave.
    unfold after, calls. simpl. intros Hc Hb.
    apply elem_of_cons in Hc as [-> | Hc]; [done |].
    apply write_via_calls in Hc as [[_ ->] | (a & w2 & _ & _ & ->)]; [done |].
    destruct (suffix_matches path); simpl in Hb; congruence.
  - intros ????? c b. rewrite read_img_None, Hread.
    unfold after, calls. simpl. intros Hc Hb.
    apply elem_of_cons in Hc as [-> | Hc]; [done |].
    apply read_via_calls in Hc as (ornt & _ & ->).
    destruct (suffix_matches path && is_file path w); simpl in Hb; congruence.
Qed.

End SuffixSelection.

Lemma suffix_selects_backend_witness :
  backend_of ∘ ev
    <$> calls (save_img (H := InMemory.env) ["new.nii"; "data"] InMemory.scan
                 "RAS" true None None None false false [] InMemory.disk)
  = [None; Some NibIO]
  ∧ backend_of ∘ ev
      <$> calls (read_img (H := InMemory.env) ["brain.nii.gz"; "data"] None
                   None None false (Some (-1)%Z) [] InMemory.disk)
    = [None; Some NibIO]
  ∧ Forall (λ c, ∀ b, backend_of (ev c) = Some b → b = NibIO)
      (calls (save_img (H := InMemory.env) ["new.nii"; "data"] InMemory.scan
                "RAS" true None None None false false [] InMemory.disk)).
Proof.
  split; [reflexivity |]. split; [reflexivity |].
  destruct (suffix_selects_backend (H := InMemory.env) InMemory.nifti_name
              Pathlib.is_file mem_is_nifti_spec ["new.nii"; "data"]
              InMemory.disk) as (_ & _ & Hsave & _).
  apply Forall_forall. intros c Hc b.
  exact (Hsave InMemory.scan "RAS" true None None false false [] c b Hc).
Defined.

(** The path [data/missing.nii] has a NIfTI suffix, but no file is there:
    the run of [read_img] with no backend given makes no call to [NibIO]
    (it goes to [ItkIO]). *)
Lemma read_img_missing_nifti_counterexample :
  ¬ (InMemory.nifti_name ["missing.nii"; "data"] = true →
     ∃ c,
       c ∈ calls (read_img (H := InMemory.env) ["missing.nii"; "data"] None
                    None None false (Some (-1)%Z) [] InMemory.disk)
       ∧ backend_of (ev c) = Some NibIO).
Proof.
  intros Hclaim. destruct Hclaim as (c & Hc & Hb); [reflexivity |].
  assert (Hcalls :
    calls (read_img (H := InMemory.env) ["missing.nii"; "data"] None None None
             false (Some (-1)%Z) [] InMemory.disk)
    = [MkCall (H := InMemory.env)
         (E_is_nifti (H := InMemory.env) ["missing.nii"; "data"] None)
         InMemory.disk;
       MkCall (H := InMemory.env)
         (E_ItkIO_read_img (H := InMemory.env) ["missing.nii"; "data"] None
            false (Some (-1)%Z) []) InMemory.disk])
    by reflexivity.
  rewrite Hcalls in Hc. in_calls; discriminate Hb.
Qed.

(** ** Explicit selectors *)

Section ExplicitSelection.
Context `{Env}.

(** C10.  An explicit selector decides alone, whatever the path:
    [read_img] and [save_img] with backend ['nib'] are the read and the
    save through [NibIO], with ['itk'] through [ItkIO].  With any explicit
    token no call of the run consults [is_nifti]; with [backend=None] the
    first call of the run does. *)
Theorem explicit_backend_overrides (path : Path) w :
  (∀ desired_ornt dtype header channels_axis kwargs,
     read_img path desired_ornt (Some "nib") dtype header channels_axis
       kwargs w
     = read_via nib_reader path desired_ornt dtype header channels_axis
         kwargs w
     ∧ read_img path desired_ornt (Some "itk") dtype header channels_axis
         kwargs w
       = read_via itk_reader path desired_ornt dtype header channels_axis
           kwargs w)
  ∧ (∀ np_image metadata use_original_ornt dtype channels_axis mkdir parents
       kwargs,
       save_img path np_image metadata use_original_ornt (Some "nib") dtype
         channels_axis mkdir parents kwargs w
       = write_via nib_writer path np_image metadata use_original_ornt dtype
           channels_axis mkdir parents kwargs w
       ∧ save_img path np_image metadata use_original_ornt (Some "itk") dtype
           channels_axis mkdir parents kwargs w
         = write_via itk_writer path np_image metadata use_original_ornt
             dtype channels_axis mkdir parents kwargs w)
  ∧ (∀ (backend : string) desired_ornt dtype header channels_axis kwargs c,
       c ∈ calls (read_img path desired_ornt (Some backend) dtype header
                    channels_axis kwargs w) →
       is_sniff (ev c) = false)
  ∧ (∀ (backend : string) np_image metadata use_original_ornt dtype
       channels_axis mkdir parents kwargs c,
       c ∈ calls (save_img path np_image metadata use_original_ornt
                    (Some backend) dtype channels_axis mkdir parents kwargs
                    w) →
       is_sniff (ev c) = false)
  ∧ (∀ desired_ornt dtype header channels_axis kwargs,
       head (calls (read_img path desired_ornt None dtype header
                      channels_axis kwargs w))
       = Some (MkCall (E_is_nifti path None) w))
  ∧ (∀ np_image metadata use_original_ornt dtype channels_axis mkdir parents
       kwargs,
       head (calls (save_img path np_image metadata use_original_ornt None
                      dtype channels_axis mkdir parents kwargs w))
       = Some (MkCall (E_is_nifti path (Some false)) w)).
Proof.
  split; [intros; split; [apply read_img_nib | apply read_img_itk] |].
  split; [intros; split; [apply save_img_nib | apply save_img_itk] |].
  split; [| split; [| split]].
  - intros backend ????? c Hc.
    apply read_img_calls in Hc as [[_ [=]] | (reader & w1 & Hc)].
    apply read_via_calls in Hc as (ornt & _ & ->). by destruct reader.
  - intros backend ???????? c Hc.
    apply save_img_calls in Hc as [[_ [=]] | (writer & w1 & Hc)].
    apply write_via_calls in Hc as [[_ ->] | (a & w2 & _ & _ & ->)];
      [done | by destruct writer].
  - intros. rewrite read_img_None.
    by destruct (is_nifti path None w) as [[x | nifti] w1].
  - intros. rewrite save_img_None.
    by destruct (is_nifti path (Some false) w) as [[x | nifti] w1].
Qed.

End ExplicitSelection.

Lemma explicit_backend_overrides_witness :
  backend_of ∘ ev
    <$> calls (read_img (H := InMemory.env) ["ct.mha"; "data"] None
                 (Some "nib") None false (Some (-1)%Z) [] InMemory.disk)
  = [Some NibIO]
  ∧ ∀ c,
      c ∈ calls (read_img (H := InMemory.env) ["ct.mha"; "data"] None
                   (Some "nib") None false (Some (-1)%Z) [] InMemory.disk) →
      is_sniff (ev c) = false.
Proof.
  split; [reflexivity |].
  destruct (explicit_backend_overrides (H := InMemory.env) ["ct.mha"; "data"]
              InMemory.disk) as (_ & _ & Hread & _).
  intros c. apply Hread.
Defined.

(** ** Orientation adaptation *)

Section Orientation.
Context `{Env}.

(** C4.  Whenever [read_img] calls the reader of [NibIO], however it was
    selected, the orientation it passes is [inv_axcodes] of the desired
    one; whenever it calls the reader of [ItkIO], the orientation it passes
    is the desired one itself.  Both calls do take place: with ['nib']
    selected and the conversion returning [ornt] the only call is the
    [NibIO] read with [ornt], with ['itk'] selected the only call is the
    [ItkIO] read with the desired orientation. *)
Theorem read_img_adapts_orientation input_path desired_ornt dtype header
    channels_axis kwargs w :
  (∀ backend c ornt,
     c ∈ calls (read_img input_path desired_ornt backend dtype header
                  channels_axis kwargs w) →
     read_ornt (ev c) = Some ornt →
     match backend_of (ev c) with
     | Some NibIO => inv_axcodes desired_ornt = inr ornt
     | _ => ornt = desired_ornt
     end)
  ∧ (∀ ornt,
       inv_axcodes desired_ornt = inr ornt →
       calls (read_img input_path desired_ornt (Some "nib") dtype header
                channels_axis kwargs w)
       = [MkCall
            (E_NibIO_read_img input_path ornt header channels_axis kwargs) w])
  ∧ calls (read_img input_path desired_ornt (Some "itk") dtype header
             channels_axis kwargs w)
    = [MkCall
         (E_ItkIO_read_img input_path desired_ornt header channels_axis
            kwargs) w].
Proof.
  split; [| split].
  - intros backend c ornt Hc Ho.
    apply read_img_calls in Hc as [[Hs _] | (reader & w1 & Hc)].
    { by destruct (ev c). }
    apply read_via_calls in Hc as (ornt' & Ha & ->).
    destruct reader; simpl in *; congruence.
  - intros ornt Hi. rewrite read_img_nib, read_via_run. simpl. rewrite Hi.
    unfold calls. by_cases.
  - rewrite read_img_itk, read_via_run. simpl. unfold calls. by_cases.
Qed.

End Orientation.

Lemma read_img_adapts_orientation_witness :
  calls (read_img (H := InMemory.env) ["brain.nii.gz"; "data"] (Some "LPS")
           (Some "nib") None false (Some (-1)%Z) [] InMemory.disk)
  = [MkCall (H := InMemory.env)
       (E_NibIO_read_img (H := InMemory.env) ["brain.nii.gz"; "data"]
          (Some "RAI") false (Some (-1)%Z) []) InMemory.disk].
Proof.
  destruct (read_img_adapts_orientation (H := InMemory.env)
              ["brain.nii.gz"; "data"] (Some "LPS") None false (Some (-1)%Z)
              [] InMemory.disk) as (_ & Hnib & _).
  apply Hnib. reflexivity.
Defined.

(** ** What [read_img] returns *)

Section ReadResult.
Context `{Env}.

(** C8.  When [read_img] returns, its last call was the read of one
    backend, which returned an array and a metadata object and left the
    world that [read_img] leaves; the metadata object returned to the
    caller is that one, and the array is the backend's array itself when
    [dtype] is [None] and what [astype] made of it otherwise. *)
Theorem read_img_returns_backend_result input_path desired_ornt backend dtype
    header channels_axis kwargs w np_image metadata w' t :
  read_img input_path desired_ornt backend dtype header channels_axis kwargs w
  = (Ok (np_image, metadata), w', t) →
  ∃ reader ornt raw w0,
    last t
    = Some (MkCall
              (read_event reader input_path ornt header channels_axis kwargs)
              w0)
    ∧ backend_read reader input_path ornt header channels_axis kwargs w0
      = (inr (raw, metadata), w')
    ∧ match dtype with
      | Some d => astype raw d = inr np_image
      | None => np_image = raw
      end.
Proof.
  destruct (read_img_shape input_path desired_ornt backend dtype header
              channels_axis kwargs w)
    as (pre & _ & [(x & w1 & ->) | (reader & w1 & ->)]); [done |].
  rewrite read_via_run.
  destruct (adapted_ornt reader desired_ornt) as [x | ornt]; [done |].
  cbv zeta.
  destruct (backend_read reader input_path ornt header channels_axis kwargs
              w1) as [[x | [raw md]] w2] eqn:Hread; [done |].
  destruct (cast_result raw dtype) as [x | a] eqn:Hcast; [done |].
  simpl. intros [= -> -> -> <-].
  exists reader, ornt, raw, w1. split; [by rewrite last_snoc |].
  split; [done |]. destruct dtype; simpl in Hcast; congruence.
Qed.

End ReadResult.

Lemma read_img_returns_backend_result_witness :
  ∃ raw,
    InMemory.load ["brain.nii.gz"; "data"] InMemory.disk
    = (inr (raw, "RAS"), InMemory.disk)
    ∧ Numpy.astype raw Numpy.uint8 = Numpy.MkArray Numpy.uint8 [0; 44; 255; 112]%Z.
Proof.
  destruct (read_img_returns_backend_result (H := InMemory.env)
              ["brain.nii.gz"; "data"] (Some "LPS") None (Some Numpy.uint8)
              false (Some (-1)%Z) [] InMemory.disk
              (Numpy.MkArray Numpy.uint8 [0; 44; 255; 112]%Z) "RAS"
              InMemory.disk
              [MkCall (H := InMemory.env)
                 (E_is_nifti (H := InMemory.env) ["brain.nii.gz"; "data"] None)
                 InMemory.disk;
               MkCall (H := InMemory.env)
                 (E_NibIO_read_img (H := InMemory.env) ["brain.nii.gz"; "data"]
                    (Some "RAI") false (Some (-1)%Z) []) InMemory.disk])
    as (reader & ornt & raw & w0 & Hlast & Hread & Hcast).
  { reflexivity. }
  exists raw. split; [| cbv [astype InMemory.env] in Hcast; congruence].
  destruct reader; simpl in Hlast; [| done | done].
  injection Hlast as _ <-. exact Hread.
Defined.

(** ** Saving a DICOM directory *)

Section SaveDir.
Context `{Env}.

(** The run of [save_dir]: the cast, then the one delegated call. *)
Lemma save_dir_run dirname np_image metadata use_original_ornt dtype
    channels_axis parents allow_dcm_reorient kwargs w :
  save_dir dirname np_image metadata use_original_ornt dtype channels_axis
    parents allow_dcm_reorient kwargs w
  = match cast_result np_image dtype with
    | inl x => (Raise (Propagated x), w, [])
    | inr np_image' =>
        match
          ItkIO_save_dcm_dir dirname np_image' metadata use_original_ornt
            channels_axis parents allow_dcm_reorient kwargs w
        with
        | (r, w') =>
            (propagate r, w',
             [MkCall
                (E_ItkIO_save_dcm_dir dirname np_image' metadata
                   use_original_ornt channels_axis parents allow_dcm_reorient
                   kwargs) w])
        end
    end.
Proof. unfold save_dir, cast_result. unfold_M. by_cases. Qed.

(** C1 (as the code has it).  [save_dir] casts the array when a dtype is
    given and forwards every argument to [ItkIO.save_dcm_dir], the
    directory-writing operation of the generic (ITK) backend: that is its
    only call, an exception of the cast or of the writer propagates, and no
    call is made to [PdcmIO] or [NibIO].  There is no backend argument. *)
Theorem save_dir_forwards_to_ItkIO dirname np_image metadata use_original_ornt
    dtype channels_axis parents allow_dcm_reorient kwargs w :
  save_dir dirname np_image metadata use_original_ornt dtype channels_axis
    parents allow_dcm_reorient kwargs w
  = match cast_result np_image dtype with
    | inl x => (Raise (Propagated x), w, [])
    | inr np_image' =>
        match
          ItkIO_save_dcm_dir dirname np_image' metadata use_original_ornt
            channels_axis parents allow_dcm_reorient kwargs w
        with
        | (r, w') =>
            (propagate r, w',
             [MkCall
                (E_ItkIO_save_dcm_dir dirname np_image' metadata
                   use_original_ornt channels_axis parents allow_dcm_reorient
                   kwargs) w])
        end
    end
  ∧ ∀ c,
      c ∈ calls (save_dir dirname np_image metadata use_original_ornt dtype
                   channels_axis parents allow_dcm_reorient kwargs w) →
      backend_of (ev c) = Some ItkIO.
Proof.
  split; [apply save_dir_run |].
  rewrite save_dir_run. intros c. unfold calls.
  destruct (cast_result np_image dtype) as [x | np_image']; simpl;
    [intros; in_calls |].
  destruct (ItkIO_save_dcm_dir _ _ _ _ _ _ _ _ _). simpl.
  intros Hc. by in_calls.
Qed.

End SaveDir.

Lemma save_dir_forwards_to_ItkIO_witness :
  Forall (λ c, backend_of (ev c) = Some ItkIO)
    (calls (save_dir (H := InMemory.env) ["export"; "data"] InMemory.scan
              "LPS" true (Some Numpy.uint8) None false false []
              InMemory.disk)).
Proof.
  apply Forall_forall.
  apply (save_dir_forwards_to_ItkIO (H := InMemory.env) ["export"; "data"]
           InMemory.scan "LPS" true (Some Numpy.uint8) None false false []
           InMemory.disk).
Defined.

(** The run of [save_dir] on the in-memory disk makes one call, and it is
    not a call to [PdcmIO], the backend behind the DICOM selector of
    [read_img]. *)
Lemma save_dir_PdcmIO_counterexample :
  ¬ ∃ c,
      c ∈ calls (save_dir (H := InMemory.env) ["export"; "data"] InMemory.scan
                   "LPS" true None None false false [] InMemory.disk)
      ∧ backend_of (ev c) = Some PdcmIO.
Proof.
  intros (c & Hc & Hb).
  assert (Hcalls :
    calls (save_dir (H := InMemory.env) ["export"; "data"] InMemory.scan "LPS"
             true None None false false [] InMemory.disk)
    = [MkCall (H := InMemory.env)
         (E_ItkIO_save_dcm_dir (H := InMemory.env) ["export"; "data"]
            InMemory.scan "LPS" true None false false []) InMemory.disk])
    by (reflexivity).
  rewrite Hcalls in Hc. in_calls. discriminate Hb.
Qed.

(** ** The cast before the write *)

Section Cast.
Context `{Env}.

(** numpy: the dtype of an array, and the contract of [astype] that the
    array it returns has the dtype asked for. *)
Variable dtype_of : Array → DType.
Hypothesis astype_dtype :
  ∀ a d a', astype a d = inr a' → dtype_of a' = d.

(** C6.  [save_img] and [save_dir] hand the cast array to the backend
    writer.  Whenever one of them calls a writer, the array in that call is
    the result of the cast of the caller's array: with a dtype given it is
    what [astype] returned, so its dtype is the one asked for whatever the
    dtype of the caller's array, and with dtype [None] it is the caller's
    array itself.  And the writer is called: when the cast goes through,
    [save_dir] makes the one call [ItkIO.save_dcm_dir] with the cast array,
    and [save_img], once its backend is selected ('nib', 'itk', or the
    verdict of the sniffer) and [Path.mkdir], if asked for, has returned,
    ends with the call of the selected writer with the cast array, in the
    world that was left to it: the cast comes before the write. *)
Theorem writer_receives_cast_array np_image metadata use_original_ornt dtype
    channels_axis kwargs w :
  (∀ c a,
     ((∃ filename backend mkdir parents,
         c ∈ calls (save_img filename np_image metadata use_original_ornt
                      backend dtype channels_axis mkdir parents kwargs w))
      ∨ (∃ dirname parents allow_dcm_reorient,
           c ∈ calls (save_dir dirname np_image metadata use_original_ornt
                        dtype channels_axis parents allow_dcm_reorient kwargs
                        w))) →
     written_array (ev c) = Some a →
     match dtype with
     | Some d => astype np_image d = inr a ∧ dtype_of a = d
     | None => a = np_image
     end)
  ∧ (∀ a,
       cast_result np_image dtype = inr a →
       match dtype with
       | Some d => dtype_of a = d
       | None => a = np_image
       end
       ∧ (∀ dirname parents allow_dcm_reorient,
            calls (save_dir dirname np_image metadata use_original_ornt dtype
                     channels_axis parents allow_dcm_reorient kwargs w)
            = [MkCall
                 (E_ItkIO_save_dcm_dir dirname a metadata use_original_ornt
                    channels_axis parents allow_dcm_reorient kwargs) w])
       ∧ (∀ filename backend (mkdir : bool) parents writer w0 w1,
            (backend = Some "nib" ∧ writer = nib_writer ∧ w0 = w)
            ∨ (backend = Some "itk" ∧ writer = itk_writer ∧ w0 = w)
            ∨ (backend = None
               ∧ ∃ nifti : bool,
                   is_nifti filename (Some false) w = (inr nifti, w0)
                   ∧ writer = if nifti then nib_writer else itk_writer) →
            (if mkdir
             then Path_mkdir (Path_parent filename) parents true w0
             else (inr tt, w0)) = (inr tt, w1) →
            last (calls (save_img filename np_image metadata use_original_ornt
                           backend dtype channels_axis mkdir parents kwargs w))
            = Some
                (MkCall
                   (write_event writer filename a metadata use_original_ornt
                      channels_axis kwargs) w1))).
Proof.
  split.
  - intros c a Hc Ha.
    assert (Hcast : cast_result np_image dtype = inr a).
    { destruct Hc as [(filename & backend & mkdir & parents & Hc)
                     | (dirname & parents & allow_dcm_reorient & Hc)].
      - apply save_img_calls in Hc as [[Hs _] | (writer & w1 & Hc)].
        { by destruct (ev c). }
        apply write_via_calls in Hc as [[_ ->] | (a' & w2 & Hcast & _ & ->)];
          [done |].
        destruct writer; simpl in Ha; congruence.
      - rewrite save_dir_run in Hc. unfold calls in Hc.
        destruct (cast_result np_image dtype) as [x | a']; simpl in Hc;
          [in_calls |].
        destruct (ItkIO_save_dcm_dir _ _ _ _ _ _ _ _ _). simpl in Hc.
        in_calls. simpl in Ha. congruence. }
    destruct dtype as [d |]; simpl in Hcast; [eauto | congruence].
  - intros a Hcast. split; [| split].
    + destruct dtype as [d |]; simpl in Hcast; [eauto | congruence].
    + intros. rewrite save_dir_run, Hcast. unfold calls.
      by destruct (ItkIO_save_dcm_dir _ _ _ _ _ _ _ _ _).
    + intros filename backend mkdir parents writer w0 w1 Hsel Hmk.
      assert (Hvia :
        last (calls (write_via writer filename np_image metadata
                       use_original_ornt dtype channels_axis mkdir parents
                       kwargs w0))
        = Some (MkCall
                  (write_event writer filename a metadata use_original_ornt
                     channels_axis kwargs) w1)).
      { rewrite write_via_run. cbv zeta. rewrite Hmk, Hcast. unfold calls.
        destruct (match writer with nib_writer => _ | itk_writer => _ end)
          as [r w2]. simpl. by rewrite last_snoc. }
      destruct Hsel as [(-> & -> & ->) | [(-> & -> & ->)
                       | (-> & nifti & Hn & ->)]].
      * by rewrite save_img_nib.
      * by rewrite save_img_itk.
      * rewrite save_img_None, Hn. unfold after, calls in *. simpl.
        destruct (write_via _ _ _ _ _ _ _ _ _ _ _) as [[r w2] t]. simpl in *.
        destruct t; [done | by rewrite last_cons, Hvia].
Qed.

End Cast.

Lemma writer_receives_cast_array_witness :
  last (calls (save_img (H := InMemory.env) ["out.mha"; "new"; "data"]
                 InMemory.scan "LPS" true (Some "itk") (Some Numpy.uint8) None
                 true false [] InMemory.disk))
  = Some
      (MkCall (H := InMemory.env)
         (E_ItkIO_save_img (H := InMemory.env) ["out.mha"; "new"; "data"]
            (Numpy.MkArray Numpy.uint8 [0; 44; 255; 112]%Z) "LPS" true None [])
         (<[ ["new"; "data"] := Pathlib.Dir ]> InMemory.disk))
  ∧ Forall
      (λ c, ∀ a : Numpy.ndarray,
         written_array (H := InMemory.env) (ev c) = Some a →
         a = Numpy.MkArray Numpy.uint8 [0; 44; 255; 112]%Z
         ∧ Numpy.dtype_of a = Numpy.uint8)
      (calls (save_img (H := InMemory.env) ["out.mha"; "data"] InMemory.scan
                "LPS" true None (Some Numpy.uint8) None false false []
                InMemory.disk)).
Proof.
  assert (Hastype : ∀ x d a',
             astype (Env := InMemory.env) x d = inr a' → Numpy.dtype_of a' = d).
  { intros x d a' [= <-]. reflexivity. }
  destruct (writer_receives_cast_array (H := InMemory.env) Numpy.dtype_of
              Hastype InMemory.scan "LPS" true (Some Numpy.uint8) None []
              InMemory.disk) as [Hall Hcalled].
  split.
  - destruct (Hcalled (Numpy.MkArray Numpy.uint8 [0; 44; 255; 112]%Z))
      as (_ & _ & Hsave); [reflexivity |].
    apply (Hsave ["out.mha"; "new"; "data"] (Some "itk") true false itk_writer
             InMemory.disk); [right; left; done | reflexivity].
  - apply Forall_forall. intros c Hc a Ha.
    destruct (Hall c a) as [Hcast Hd].
    + left. by exists ["out.mha"; "data"], None, false, false.
    + exact Ha.
    + split; [| exact Hd]. cbv [astype InMemory.env] in Hcast.
      injection Hcast as <-. reflexivity.
Defined.

(** ** The orientation converter is an involution *)

Section Involution.
Import ConvertNibItk.

Lemma inv_axcode_supported (c : ascii) :
  c ∈ axis_letters →
  ∃ c', inv_axcode c = Some c' ∧ inv_axcode c' = Some c ∧ c' ∈ axis_letters.
Proof.
  unfold axis_letters. rewrite !elem_of_cons, elem_of_nil.
  intros [-> | [-> | [-> | [-> | [-> | [-> | []]]]]]];
    eexists; (split; [reflexivity |]); (split; [reflexivity |]);
    rewrite !elem_of_cons; tauto.
Qed.

(** C9.  On a code over the supported axis letters the conversion to the
    other convention succeeds, its result is again a code over those
    letters, and converting the result gives back the code: the conversion
    applied twice is the identity. *)
Theorem inv_axcodes_involutive (axcodes : string) :
  supported axcodes = true →
  ∃ converted,
    inv_axcodes axcodes = Some converted
    ∧ supported converted = true
    ∧ inv_axcodes converted = Some axcodes.
Proof.
  unfold supported.
  induction axcodes as [| c rest IH]; simpl; [by eexists |].
  rewrite andb_true_iff, bool_decide_eq_true. intros [Hc Hrest].
  destruct (inv_axcode_supported c Hc) as (c' & Hc1 & Hc2 & Hc3).
  destruct (IH Hrest) as (rest' & Hr1 & Hr2 & Hr3).
  exists (String c' rest'). rewrite Hc1, Hr1. simpl.
  rewrite Hc2, Hr3, Hr2, andb_true_r, bool_decide_eq_true. done.
Qed.

End Involution.

Lemma inv_axcodes_involutive_witness :
  ConvertNibItk.inv_axcodes "SPL" = Some "IAR"
  ∧ ConvertNibItk.inv_axcodes "IAR" = Some "SPL".
Proof.
  destruct (inv_axcodes_involutive "SPL") as (converted & H1 & _ & H2);
    [reflexivity |].
  split; [reflexivity |].
  assert (converted = "IAR") as -> by (vm_compute in H1; congruence).
  exact H2.
Defined.

(** ** Directory creation in the file system of [Pathlib] *)

Section PathlibFacts.
Import Pathlib.
Context {C : Type}.
Implicit Types (p q : PurePath) (fs : gmap PurePath (Node C)).

(** A node stored at a longer path is not on the way to a shorter one. *)
Lemma stat_insert_longer p q (n : Node C) fs :
  length q < length p → stat q (<[p := n]> fs) = stat q fs.
Proof.
  induction q as [| c up IH]; simpl; [done |]. intros Hlen.
  rewrite IH by lia. rewrite lookup_insert_ne; [done |].
  intros ->. simpl in Hlen. lia.
Qed.

Lemma is_dir_up p fs : is_dir p fs = true → is_dir (parent p) fs = true.
Proof.
  destruct p as [| c up]; simpl; [done |]. unfold is_dir. simpl.
  by destruct (stat up fs) as [e | [| content]].
Qed.

Lemma os_mkdir_is_dir p fs fs' : os_mkdir p fs = inr fs' → is_dir p fs' = true.
Proof.
  destruct p as [| c up]; simpl; [done |].
  destruct (stat up fs) as [e | [| content]] eqn:Hup; try done.
  destruct (fs !! (c :: up)) eqn:Hp; simpl; [done |]. intros [= <-].
  unfold is_dir. simpl.
  rewrite stat_insert_longer by (simpl; lia).
  by rewrite Hup, lookup_insert_eq.
Qed.

Lemma mkdir_one_is_dir p exist_ok fs fs' :
  mkdir_one p exist_ok fs = (inr tt, fs') → is_dir p fs' = true.
Proof.
  unfold mkdir_one.
  destruct (os_mkdir p fs) as [e | fs1] eqn:Hos.
  - destruct e; try done;
      destruct (exist_ok && is_dir p fs) eqn:Hok; try done;
      intros [= <-]; by apply andb_true_iff in Hok as [_ Hok].
  - intros [= <-]. by eapply os_mkdir_is_dir.
Qed.

(** [Path.mkdir] returns only when the directory is there. *)
Lemma mkdir_is_dir p parents exist_ok fs fs' :
  mkdir p parents exist_ok fs = (inr tt, fs') → is_dir p fs' = true.
Proof.
  destruct p as [| c up]; simpl; [done |].
  change (match stat up fs with
          | inl e => inl e
          | inr Dir =>
              match fs !! (c :: up) with
              | Some _ => inl FileExistsError
              | None => inr (<[c :: up := Dir]> fs)
              end
          | inr (File _) => inl NotADirectoryError
          end) with (os_mkdir (c :: up) fs).
  destruct (os_mkdir (c :: up) fs) as [e | fs1] eqn:Hos.
  - destruct e.
    + destruct (exist_ok && is_dir (c :: up) fs) eqn:Hok; [| done].
      intros [= <-]. by apply andb_true_iff in Hok as [_ Hok].
    + destruct parents; [| done].
      destruct (mkdir up true true fs) as [[e | u] fs1]; [done |].
      apply mkdir_one_is_dir.
    + destruct (exist_ok && is_dir (c :: up) fs) eqn:Hok; [| done].
      intros [= <-]. by apply andb_true_iff in Hok as [_ Hok].
    + destruct (exist_ok && is_dir (c :: up) fs) eqn:Hok; [| done].
      intros [= <-]. by apply andb_true_iff in Hok as [_ Hok].
  - intros [= <-]. by eapply os_mkdir_is_dir.
Qed.

(** [exist_ok=True]: on a directory that is there, [Path.mkdir] returns
    and changes nothing. *)
Lemma mkdir_exists p parents fs :
  is_dir p fs = true → mkdir p parents true fs = (inr tt, fs).
Proof.
  intros Hd. destruct p as [| c up]; simpl; [done |].
  assert (Hd' := Hd). unfold is_dir in Hd'. simpl in Hd'.
  destruct (stat up fs) as [e | [| content]] eqn:Hup; try done.
  destruct (fs !! (c :: up)) as [n |] eqn:Hp; [| done].
  simpl. by rewrite Hd.
Qed.

(** [Path.mkdir] stores nothing at a path longer than its own. *)
Lemma os_mkdir_lookup_longer p q fs fs' :
  os_mkdir q fs = inr fs' → length q < length p → fs' !! p = fs !! p.
Proof.
  destruct q as [| c up]; simpl; [done |].
  destruct (stat up fs) as [e | [| content]]; try done.
  destruct (fs !! (c :: up)); simpl; [done |]. intros [= <-] Hlen.
  apply lookup_insert_ne. intros <-. simpl in Hlen. lia.
Qed.

Lemma mkdir_one_lookup_longer p q exist_ok fs r fs' :
  mkdir_one q exist_ok fs = (r, fs') → length q < length p →
  fs' !! p = fs !! p.
Proof.
  unfold mkdir_one. destruct (os_mkdir q fs) as [e | fs1] eqn:Hos.
  - destruct e; try destruct (exist_ok && is_dir q fs); by intros [= _ <-].
  - intros [= _ <-]. by apply os_mkdir_lookup_longer.
Qed.

Lemma mkdir_lookup_longer p q parents exist_ok fs r fs' :
  mkdir q parents exist_ok fs = (r, fs') → length q < length p →
  fs' !! p = fs !! p.
Proof.
  revert parents exist_ok fs r fs'.
  induction q as [| c up IH]; intros parents exist_ok fs r fs'.
  { simpl. destruct exist_ok; by intros [= _ <-]. }
  simpl.
  change (match stat up fs with
          | inl e => inl e
          | inr Dir =>
              match fs !! (c :: up) with
              | Some _ => inl FileExistsError
              | None => inr (<[c :: up := Dir]> fs)
              end
          | inr (File _) => inl NotADirectoryError
          end) with (os_mkdir (c :: up) fs).
  destruct (os_mkdir (c :: up) fs) as [e | fs1] eqn:Hos.
  - destruct e;
      try (destruct (exist_ok && is_dir (c :: up) fs); by intros [= _ <-]).
    destruct parents; [| by intros [= _ <-]].
    destruct (mkdir up true true fs) as [[e | u] fs1] eqn:Hup.
    + intros [= _ <-] Hlen. eapply IH; [done | simpl in Hlen; lia].
    + intros Hone Hlen.
      rewrite (mkdir_one_lookup_longer _ _ _ _ _ _ Hone Hlen).
      eapply IH; [done | simpl in Hlen; lia].
  - intros [= _ <-] Hlen. by eapply os_mkdir_lookup_longer.
Qed.

(** With no file in the way a path resolves to a directory or to
    nothing. *)
Lemma stat_unobstructed p fs :
  unobstructed p fs = true →
  stat p fs = inr Dir ∨ stat p fs = inl FileNotFoundError.
Proof.
  induction p as [| c up IH]; simpl; [by left |].
  rewrite andb_true_iff. intros [Hup Hp].
  destruct (IH Hup) as [-> | ->]; [| by right].
  destruct (fs !! (c :: up)) as [[| content] |]; auto. done.
Qed.

(** [parents=True, exist_ok=True]: with no file in the way, [Path.mkdir]
    returns, whichever ancestors are missing. *)
Lemma mkdir_parents_returns p fs :
  unobstructed p fs = true → ∃ fs', mkdir p true true fs = (inr tt, fs').
Proof.
  revert fs. induction p as [| c up IH]; intros fs; [by eexists |].
  intros Hun. assert (Hun' := Hun). simpl in Hun'.
  apply andb_true_iff in Hun' as [Hup Hp].
  simpl. destruct (stat_unobstructed up fs Hup) as [Hs | Hs]; rewrite Hs.
  - unfold is_dir. simpl. rewrite Hs.
    destruct (fs !! (c :: up)) as [[| content] |]; by eauto.
  - destruct (IH fs Hup) as [fs1 H1]. rewrite H1.
    unfold mkdir_one, os_mkdir.
    pose proof (mkdir_is_dir _ _ _ _ _ H1) as Hd.
    assert (Hl : fs1 !! (c :: up) = fs !! (c :: up))
      by (eapply mkdir_lookup_longer; [done | simpl; lia]).
    unfold is_dir in *. simpl.
    destruct (stat up fs1) as [e | [| content]]; try done.
    rewrite Hl.
    destruct (fs !! (c :: up)) as [[| content] |]; by eauto.
Qed.

End PathlibFacts.

(** The in-memory [Path.mkdir] meets the contract of pathlib. *)
Section InMemoryMkdir.
Import Pathlib InMemory.

Lemma mem_mkdir_is_dir p parents exist_ok fs fs' :
  mem_mkdir p parents exist_ok fs = (inr tt, fs') → is_dir p fs' = true.
Proof.
  unfold mem_mkdir.
  destruct (mkdir p parents exist_ok fs) as [[e | []] fs1] eqn:Hmk; [done |].
  intros [= <-]. by eapply mkdir_is_dir.
Qed.

Lemma mem_mkdir_exists p parents fs :
  is_dir p fs = true → ∃ fs', mem_mkdir p parents true fs = (inr tt, fs').
Proof.
  intros Hd. exists fs. unfold mem_mkdir. by rewrite mkdir_exists.
Qed.

Lemma mem_mkdir_parents p fs :
  unobstructed p fs = true → ∃ fs', mem_mkdir p true true fs = (inr tt, fs').
Proof.
  intros Hun. destruct (mkdir_parents_returns p fs Hun) as [fs' Hmk].
  exists fs'. unfold mem_mkdir. by rewrite Hmk.
Qed.

End InMemoryMkdir.

(** ** Directory creation before the write *)

Section Mkdir.
Context `{Env}.

(** The calls of [save_img] with [mkdir=True]: the sniffer if no backend
    was given, then [Path.mkdir] on the parent, then, if that returned and
    the cast went through, the writer in the world that [Path.mkdir]
    left. *)
Lemma save_img_mkdir_calls filename np_image metadata use_original_ornt
    backend dtype channels_axis parents kwargs w :
  ∃ pre,
    Forall (λ c, is_sniff (ev c) = true) pre
    ∧ (calls (save_img filename np_image metadata use_original_ornt backend
                dtype channels_axis true parents kwargs w) = pre
       ∨ ∃ writer w1,
           calls (save_img filename np_image metadata use_original_ornt
                    backend dtype channels_axis true parents kwargs w)
           = pre
             ++ MkCall (E_Path_mkdir (Path_parent filename) parents true) w1
             :: match Path_mkdir (Path_parent filename) parents true w1 with
                | (inl _, _) => []
                | (inr _, w2) =>
                    match cast_result np_image dtype with
                    | inl _ => []
                    | inr np_image' =>
                        [MkCall
                           (write_event writer filename np_image' metadata
                              use_original_ornt channels_axis kwargs) w2]
                    end
                end).
Proof.
  destruct (save_img_shape filename np_image metadata use_original_ornt
              backend dtype channels_axis true parents kwargs w)
    as (pre & Hpre & [(x & w1 & ->) | (writer & w1 & ->)]);
    exists pre; (split; [eapply Forall_impl; [exact Hpre | by intros c []] |]).
  { by left. }
  right. exists writer, w1. rewrite write_via_run. unfold calls. cbv zeta.
  destruct (Path_mkdir (Path_parent filename) parents true w1)
    as [[x | u] w2]; [done |].
  destruct (cast_result np_image dtype) as [x | np_image']; [done |].
  by destruct writer;
    [destruct (NibIO_save_img _ _ _ _ _ _ _)
    | destruct (ItkIO_save_img _ _ _ _ _ _ _)].
Qed.

(** pathlib: whether a path is a directory, whether no file is in the way
    of a path, and the contract of [Path.mkdir]: it returns only when the
    directory is there; a directory lies in a directory; with
    [exist_ok=True] it returns on a directory that is there; and with
    [parents=True, exist_ok=True] it returns whenever no file is in the
    way, whichever ancestors are missing. *)
Variable is_dir : Path → World → bool.
Variable unobstructed : Path → World → bool.
Hypothesis mkdir_is_dir :
  ∀ p parents exist_ok w w',
    Path_mkdir p parents exist_ok w = (inr tt, w') → is_dir p w' = true.
Hypothesis is_dir_parent :
  ∀ p w, is_dir p w = true → is_dir (Path_parent p) w = true.
Hypothesis mkdir_exist_ok :
  ∀ p parents w,
    is_dir p w = true → ∃ w', Path_mkdir p parents true w = (inr tt, w').
Hypothesis mkdir_parents :
  ∀ p w,
    unobstructed p w = true → ∃ w', Path_mkdir p true true w = (inr tt, w').

(** C7.  In a run of [save_img] with [mkdir=True]:
    - a call to a backend writer is the last call of the run and comes
      right after the call [Path.mkdir(parents=parents, exist_ok=True)] on
      the parent of the destination; it is made in the world that this
      creation left, in which the parent and all its ancestors are
      directories;
    - the only directory creation is that call; when it is made and the
      parent is a directory already, or [parents] is set and no file is in
      the way, it returns, and the writer is then called with the cast
      array if the cast goes through;
    - with backend ['nib'] or ['itk'] the creation is the first call. *)
Theorem save_img_mkdir_before_write filename np_image metadata
    use_original_ornt backend dtype channels_axis parents kwargs w :
  let run backend :=
    save_img filename np_image metadata use_original_ornt backend dtype
      channels_axis true parents kwargs w in
  let made := E_Path_mkdir (Path_parent filename) parents true in
  (∀ c a,
     c ∈ calls (run backend) → written_array (ev c) = Some a →
     ∃ t0 w0,
       calls (run backend) = t0 ++ [MkCall made w0; c]
       ∧ Path_mkdir (Path_parent filename) parents true w0
         = (inr tt, before c)
       ∧ ∀ n,
           is_dir (Nat.iter n Path_parent (Path_parent filename)) (before c)
           = true)
  ∧ (∀ c,
       c ∈ calls (run backend) → is_mkdir (ev c) = true →
       ev c = made
       ∧ (is_dir (Path_parent filename) (before c) = true
          ∨ (parents = true
             ∧ unobstructed (Path_parent filename) (before c) = true) →
          ∃ w1,
            Path_mkdir (Path_parent filename) parents true (before c)
            = (inr tt, w1)
            ∧ ∀ a,
                cast_result np_image dtype = inr a →
                ∃ c',
                  c' ∈ calls (run backend)
                  ∧ written_array (ev c') = Some a ∧ before c' = w1))
  ∧ (∀ token : string,
       token ∈ save_tokens →
       head (calls (run (Some token))) = Some (MkCall made w)).
Proof.
  intros run made. subst run made. cbv beta.
  split; [| split].
  - intros c a Hc Ha.
    destruct (save_img_mkdir_calls filename np_image metadata
                use_original_ornt backend dtype channels_axis parents kwargs
                w) as (pre & Hpre & [Hrun | (writer & w1 & Hrun)]);
      rewrite Forall_forall in Hpre; rewrite Hrun in Hc |- *.
    { apply Hpre in Hc. by destruct (ev c). }
    apply elem_of_app in Hc as [Hc | Hc].
    { apply Hpre in Hc. by destruct (ev c). }
    apply elem_of_cons in Hc as [-> | Hc]; [done |].
    destruct (Path_mkdir (Path_parent filename) parents true w1)
      as [[x | []] w2] eqn:Hmk; [in_calls |].
    destruct (cast_result np_image dtype) as [x | a']; in_calls.
    exists pre, w1. simpl. repeat split; [done |].
    intros n. induction n as [| n IH]; simpl; [by eapply mkdir_is_dir |].
    by apply is_dir_parent.
  - intros c Hc Hm.
    destruct (save_img_mkdir_calls filename np_image metadata
                use_original_ornt backend dtype channels_axis parents kwargs
                w) as (pre & Hpre & [Hrun | (writer & w1 & Hrun)]);
      rewrite Forall_forall in Hpre; rewrite Hrun in Hc |- *.
    { apply Hpre in Hc. by destruct (ev c). }
    apply elem_of_app in Hc as [Hc | Hc].
    { apply Hpre in Hc. by destruct (ev c). }
    apply elem_of_cons in Hc as [-> | Hc].
    + simpl. split; [done |]. intros Hok.
      assert (∃ w2, Path_mkdir (Path_parent filename) parents true w1
                    = (inr tt, w2)) as [w2 Hmk].
      { destruct Hok as [Hd | [-> Hun]]; eauto. }
      exists w2. split; [done |]. intros a Ha. rewrite Hmk, Ha.
      eexists. split; [apply elem_of_app; right; right; left |].
      by destruct writer.
    + destruct (Path_mkdir (Path_parent filename) parents true w1)
        as [[x | []] w2]; [in_calls |].
      destruct (cast_result np_image dtype) as [x | a']; in_calls.
      by destruct writer.
  - intros token Htok.
    assert (token = "nib" ∨ token = "itk") as [-> | ->]
      by (unfold save_tokens in Htok; rewrite !elem_of_cons in Htok;
          rewrite elem_of_nil in Htok; tauto).
    + rewrite save_img_nib, write_via_run. unfold calls. cbv zeta.
      by_cases.
    + rewrite save_img_itk, write_via_run. unfold calls. cbv zeta.
      by_cases.
Qed.

End Mkdir.

Lemma save_img_mkdir_before_write_witness :
  backend_of ∘ ev
    <$> calls (save_img (H := InMemory.env) ["x.nii"; "b"; "a"; "data"]
                 InMemory.scan "RAS" true None (Some Numpy.uint8) None true
                 true [] InMemory.disk)
  = [None; None; Some NibIO]
  ∧ ∀ c a,
      c ∈ calls (save_img (H := InMemory.env) ["x.nii"; "b"; "a"; "data"]
                   InMemory.scan "RAS" true None (Some Numpy.uint8) None true
                   true [] InMemory.disk) →
      written_array (ev c) = Some a →
      ∀ n,
        Pathlib.is_dir (Nat.iter n Pathlib.parent ["b"; "a"; "data"]) (before c)
        = true.
Proof.
  split; [reflexivity |].
  intros c a Hc Ha.
  destruct (save_img_mkdir_before_write (H := InMemory.env) Pathlib.is_dir
              Pathlib.unobstructed mem_mkdir_is_dir is_dir_up mem_mkdir_exists
              mem_mkdir_parents ["x.nii"; "b"; "a"; "data"] InMemory.scan "RAS"
              true None (Some Numpy.uint8) None true [] InMemory.disk)
    as (Hwrite & _ & _).
  destruct (Hwrite c a Hc Ha) as (t0 & w0 & _ & _ & Hdirs).
  exact Hdirs.
Defined.

(** * Further properties of the facade *)

(** ** Where the facade's own exceptions come from *)

Section OwnExceptions.
Context `{Env}.

(** A read or a save through one backend raises only what a collaborator
    raised. *)
Lemma read_via_raises reader input_path desired_ornt dtype header
    channels_axis kwargs w x w' t :
  read_via reader input_path desired_ornt dtype header channels_axis kwargs w
  = (Raise x, w', t) →
  ∃ e, x = Propagated e.
Proof.
  rewrite read_via_run.
  destruct (adapted_ornt reader desired_ornt) as [e | ornt];
    [intros [= <- _ _]; eauto |].
  cbv zeta.
  destruct (backend_read _ _ _ _ _ _ _) as [[e | [raw md]] w1];
    [intros [= <- _ _]; eauto |].
  destruct (cast_result raw dtype) as [e | a]; [| done].
  intros [= <- _ _]; eauto.
Qed.

Lemma write_via_raises writer filename np_image metadata use_original_ornt
    dtype channels_axis mkdir parents kwargs w x w' t :
  write_via writer filename np_image metadata use_original_ornt dtype
    channels_axis mkdir parents kwargs w = (Raise x, w', t) →
  ∃ e, x = Propagated e.
Proof.
  rewrite write_via_run. cbv zeta.
  destruct (if mkdir then _ else _) as [[e | u] w1];
    [intros [= <- _ _]; eauto |].
  destruct (cast_result np_image dtype) as [e | a];
    [intros [= <- _ _]; eauto |].
  destruct (match writer with nib_writer => _ | itk_writer => _ end)
    as [[e | u'] w2]; simpl; [| done].
  intros [= <- _ _]; eauto.
Qed.

(** X1.  When [read_img] ends in an exception that no collaborator raised,
    nothing has happened yet: the world is the one it was called in and no
    call was made.  The backend was then given explicitly, and the exception
    is [ValueError] for a token that is none of ['nib'], ['itk'], ['pdcm'],
    ['pydicom'], or [NotImplementedError] for a DICOM token together with a
    desired orientation. *)
Theorem read_img_own_exceptions input_path desired_ornt backend dtype header
    channels_axis kwargs w x w' t :
  read_img input_path desired_ornt backend dtype header channels_axis kwargs w
  = (Raise x, w', t) →
  (∀ e, x ≠ Propagated e) →
  w' = w ∧ t = []
  ∧ ∃ token : string,
      backend = Some token
      ∧ ((x = ValueError read_backend_msg ∧ token ∉ read_tokens)
         ∨ (x = NotImplementedError pdcm_reorient_msg
            ∧ (token = "pdcm" ∨ token = "pydicom")
            ∧ desired_ornt ≠ None)).
Proof.
  intros Hrun Hown. destruct backend as [token |].
  - destruct (String.eqb token "nib") eqn:Hnib.
    { apply String.eqb_eq in Hnib as ->. rewrite read_img_nib in Hrun.
      apply read_via_raises in Hrun as [e ->]. by destruct (Hown e). }
    destruct (String.eqb token "itk") eqn:Hitk.
    { apply String.eqb_eq in Hitk as ->. rewrite read_img_itk in Hrun.
      apply read_via_raises in Hrun as [e ->]. by destruct (Hown e). }
    destruct (String.eqb token "pdcm" || String.eqb token "pydicom") eqn:Hpdcm.
    + assert (Htok : token = "pdcm" ∨ token = "pydicom").
      { apply orb_true_iff in Hpdcm as [Hp | Hp];
          apply String.eqb_eq in Hp; auto. }
      destruct desired_ornt as [ornt |].
      * unfold read_img in Hrun. simpl in Hrun.
        rewrite Hnib, Hitk, Hpdcm in Hrun. injection Hrun as <- <- <-.
        repeat split; try done. exists token. split; [done |]. by right.
      * rewrite (read_img_pdcm _ _ _ _ _ _ _ Htok) in Hrun.
        apply read_via_raises in Hrun as [e ->]. by destruct (Hown e).
    + unfold read_img in Hrun. simpl in Hrun.
      rewrite Hnib, Hitk, Hpdcm in Hrun. injection Hrun as <- <- <-.
      repeat split; try done. exists token. split; [done |]. left.
      split; [done |]. apply orb_false_iff in Hpdcm as [Hp1 Hp2].
      apply String.eqb_neq in Hnib, Hitk, Hp1, Hp2.
      unfold read_tokens. rewrite !not_elem_of_cons. repeat split; try done.
      apply not_elem_of_nil.
  - rewrite read_img_None in Hrun.
    destruct (is_nifti input_path None w) as [[e | nifti] w1].
    { injection Hrun as <- _ _. by destruct (Hown e). }
    unfold after in Hrun.
    destruct (read_via _ _ _ _ _ _ _ _) as [[r w2] t2] eqn:Hvia.
    simpl in Hrun. injection Hrun as -> _ _.
    apply read_via_raises in Hvia as [e ->]. by destruct (Hown e).
Qed.

(** X2.  When [save_img] ends in an exception that no collaborator raised,
    the world is the one it was called in and no call was made: the
    exception is [ValueError], for an explicit token that is neither ['nib']
    nor ['itk'].  [save_dir] raises nothing of its own. *)
Theorem save_own_exceptions np_image metadata use_original_ornt dtype
    channels_axis parents kwargs w x w' t :
  (∀ filename backend mkdir,
     save_img filename np_image metadata use_original_ornt backend dtype
       channels_axis mkdir parents kwargs w = (Raise x, w', t) →
     (∀ e, x ≠ Propagated e) →
     w' = w ∧ t = [] ∧ x = ValueError save_backend_msg
     ∧ ∃ token : string, backend = Some token ∧ token ∉ save_tokens)
  ∧ (∀ dirname allow_dcm_reorient,
       save_dir dirname np_image metadata use_original_ornt dtype
         channels_axis parents allow_dcm_reorient kwargs w = (Raise x, w', t) →
       ∃ e, x = Propagated e).
Proof.
  split.
  - intros filename backend mkdir Hrun Hown. destruct backend as [token |].
    + destruct (String.eqb token "nib") eqn:Hnib.
      { apply String.eqb_eq in Hnib as ->. rewrite save_img_nib in Hrun.
        apply write_via_raises in Hrun as [e ->]. by destruct (Hown e). }
      destruct (String.eqb token "itk") eqn:Hitk.
      { apply String.eqb_eq in Hitk as ->. rewrite save_img_itk in Hrun.
        apply write_via_raises in Hrun as [e ->]. by destruct (Hown e). }
      unfold save_img in Hrun. simpl in Hrun. rewrite Hnib, Hitk in Hrun.
      injection Hrun as <- <- <-. repeat split; try done.
      exists token. split; [done |].
      apply String.eqb_neq in Hnib, Hitk.
      unfold save_tokens. rewrite !not_elem_of_cons. repeat split; try done.
      apply not_elem_of_nil.
    + rewrite save_img_None in Hrun.
      destruct (is_nifti filename (Some false) w) as [[e | nifti] w1].
      { injection Hrun as <- _ _. by destruct (Hown e). }
      unfold after in Hrun.
      destruct (write_via _ _ _ _ _ _ _ _ _ _ _) as [[r w2] t2] eqn:Hvia.
      simpl in Hrun. injection Hrun as -> _ _.
      apply write_via_raises in Hvia as [e ->]. by destruct (Hown e).
  - intros dirname allow_dcm_reorient. rewrite save_dir_run.
    destruct (cast_result np_image dtype) as [e | a];
      [intros [= <- _ _]; eauto |].
    destruct (ItkIO_save_dcm_dir _ _ _ _ _ _ _ _ _) as [[e | u] w1]; simpl;
      [| done].
    intros [= <- _ _]; eauto.
Qed.

End OwnExceptions.

Lemma read_img_own_exceptions_witness :
  read_img (H := InMemory.env) ["series"; "data"] (Some "RAS")
    (Some "pydicom") None false (Some (-1)%Z) [] InMemory.disk
  = (Raise (NotImplementedError pdcm_reorient_msg), InMemory.disk, [])
  ∧ ∃ token : string,
      Some "pydicom" = Some token
      ∧ ((NotImplementedError (ExtExn := InMemory.error) pdcm_reorient_msg
          = ValueError read_backend_msg ∧ token ∉ read_tokens)
         ∨ (NotImplementedError (ExtExn := InMemory.error) pdcm_reorient_msg
            = NotImplementedError pdcm_reorient_msg
            ∧ (token = "pdcm" ∨ token = "pydicom")
            ∧ Some "RAS" ≠ None)).
Proof.
  split; [reflexivity |].
  apply (read_img_own_exceptions (H := InMemory.env) ["series"; "data"]
           (Some "RAS") (Some "pydicom") None false (Some (-1)%Z) []
           InMemory.disk _ InMemory.disk []); [reflexivity | done].
Defined.

Lemma save_own_exceptions_witness :
  ∃ token : string,
    Some "pdcm" = Some token ∧ token ∉ save_tokens.
Proof.
  destruct (save_own_exceptions (H := InMemory.env) InMemory.scan "LPS" true
              None None false [] InMemory.disk
              (ValueError save_backend_msg) InMemory.disk []) as [Hsave _].
  apply (Hsave ["series"; "data"] (Some "pdcm") true); [reflexivity | done].
Defined.

(** ** How many calls a run makes, and with which arguments *)

Section CallBudget.
Context `{Env}.

(** A run of [read_img]: at most the one call to the sniffer, and then an
    exception or the read through one backend. *)
Lemma read_img_trace input_path desired_ornt backend dtype header
    channels_axis kwargs w :
  ∃ pre,
    (pre = [] ∨ (pre = [MkCall (E_is_nifti input_path None) w] ∧ backend = None))
    ∧ ((∃ x w1,
          read_img input_path desired_ornt backend dtype header channels_axis
            kwargs w = (Raise x, w1, pre))
       ∨ (∃ reader w1,
            read_img input_path desired_ornt backend dtype header
              channels_axis kwargs w
            = (let r := read_via reader input_path desired_ornt dtype header
                          channels_axis kwargs w1 in
               (r.1, pre ++ r.2)))).
Proof.
  destruct backend as [backend |].
  - exists []. split; [by left |].
    destruct (read_img_Some backend input_path desired_ornt dtype header
                channels_axis kwargs w) as [[reader Hr] | [x Hx]].
    + right. exists reader, w. rewrite Hr. simpl.
      by destruct (read_via _ _ _ _ _ _ _ _) as [[] ?].
    + left. eauto.
  - exists [MkCall (E_is_nifti input_path None) w]. split; [by right |].
    rewrite read_img_None.
    destruct (is_nifti input_path None w) as [[x | nifti] w1]; [left; eauto |].
    right. by exists (if nifti then nib_reader else itk_reader), w1.
Qed.

(** A run of [save_img]: at most the one call to the sniffer, and then an
    exception or the save through one backend. *)
Lemma save_img_trace filename np_image metadata use_original_ornt backend
    dtype channels_axis mkdir parents kwargs w :
  ∃ pre,
    (pre = []
     ∨ (pre = [MkCall (E_is_nifti filename (Some false)) w] ∧ backend = None))
    ∧ ((∃ x w1,
          save_img filename np_image metadata use_original_ornt backend dtype
            channels_axis mkdir parents kwargs w = (Raise x, w1, pre))
       ∨ (∃ writer w1,
            save_img filename np_image metadata use_original_ornt backend
              dtype channels_axis mkdir parents kwargs w
            = (let r := write_via writer filename np_image metadata
                          use_original_ornt dtype channels_axis mkdir
                          parents kwargs w1 in
               (r.1, pre ++ r.2)))).
Proof.
  destruct backend as [backend |].
  - exists []. split; [by left |].
    destruct (save_img_Some backend filename np_image metadata
                use_original_ornt dtype channels_axis mkdir parents kwargs w)
      as [[writer Hw] | Hx].
    + right. exists writer, w. rewrite Hw. simpl.
      by destruct (write_via _ _ _ _ _ _ _ _ _ _ _) as [[] ?].
    + left. eauto.
  - exists [MkCall (E_is_nifti filename (Some false)) w]. split; [by right |].
    rewrite save_img_None.
    destruct (is_nifti filename (Some false) w) as [[x | nifti] w1];
      [left; eauto |].
    right. by exists (if nifti then nib_writer else itk_writer), w1.
Qed.

Lemma backend_of_read_event reader input_path ornt header channels_axis kwargs :
  is_Some
    (backend_of (read_event reader input_path ornt header channels_axis kwargs)).
Proof. by destruct reader. Qed.

Lemma backend_of_write_event writer filename np_image metadata
    use_original_ornt channels_axis kwargs :
  is_Some
    (backend_of
       (write_event writer filename np_image metadata use_original_ornt
          channels_axis kwargs)).
Proof. by destruct writer. Qed.

(** X3.  The calls of a run of [read_img].  Each one is the question to the
    sniffer about the caller's path (asked only when no backend was given)
    or a read of one backend with the caller's path, header flag, channels
    axis and keyword arguments; so [read_img] creates no directory and calls
    no writer.  There are at most two calls, at most one of them to a
    backend, and exactly one to a backend when [read_img] returns. *)
Theorem read_img_call_budget input_path desired_ornt backend dtype header
    channels_axis kwargs w :
  let run :=
    read_img input_path desired_ornt backend dtype header channels_axis
      kwargs w in
  (∀ c,
     c ∈ calls run →
     (ev c = E_is_nifti input_path None ∧ backend = None)
     ∨ ∃ reader ornt,
         ev c = read_event reader input_path ornt header channels_axis kwargs)
  ∧ length (calls run) ≤ 2
  ∧ length (omap (backend_of ∘ ev) (calls run)) ≤ 1
  ∧ (∀ v,
       outcome run = Ok v →
       length (omap (backend_of ∘ ev) (calls run)) = 1).
Proof.
  intros run. subst run.
  destruct (read_img_trace input_path desired_ornt backend dtype header
              channels_axis kwargs w)
    as (pre & Hpre & [(x & w1 & ->) | (reader & w1 & ->)]).
  { unfold calls, outcome. simpl.
    destruct Hpre as [-> | [-> ->]]; simpl;
      (split; [intros c Hc; in_calls; auto |]); repeat split; try lia; done. }
  rewrite read_via_run. unfold calls, outcome.
  destruct (adapted_ornt reader desired_ornt) as [x | ornt].
  { destruct Hpre as [-> | [-> ->]]; simpl;
      (split; [intros c Hc; in_calls; auto |]); repeat split; try lia; done. }
  cbv zeta.
  pose proof (backend_of_read_event reader input_path ornt header
                channels_axis kwargs) as [b Hb].
  destruct (backend_read _ _ _ _ _ _ _) as [[x | [raw md]] w2];
    [| destruct (cast_result raw dtype) as [x | a]];
    destruct Hpre as [-> | [-> ->]]; simpl; rewrite ?Hb; simpl;
    (split; [intros c Hc; in_calls; simpl; eauto |]);
    repeat split; try lia; done.
Qed.

(** X4.  The calls of a run of [save_img].  Each one is the question to the
    sniffer about the destination (asked only when no backend was given),
    the creation of the destination's parent (made only when [mkdir] is set)
    or a write of one backend with the cast array and the caller's
    destination, metadata, orientation flag, channels axis and keyword
    arguments; so [save_img] calls no reader.  There are at most three
    calls, at most one of them to a backend, and exactly one to a backend
    when [save_img] returns. *)
Theorem save_img_call_budget filename np_image metadata use_original_ornt
    backend dtype channels_axis mkdir parents kwargs w :
  let run :=
    save_img filename np_image metadata use_original_ornt backend dtype
      channels_axis mkdir parents kwargs w in
  (∀ c,
     c ∈ calls run →
     (ev c = E_is_nifti filename (Some false) ∧ backend = None)
     ∨ (ev c = E_Path_mkdir (Path_parent filename) parents true
        ∧ mkdir = true)
     ∨ ∃ writer a,
         cast_result np_image dtype = inr a
         ∧ ev c = write_event writer filename a metadata use_original_ornt
                    channels_axis kwargs)
  ∧ length (calls run) ≤ 3
  ∧ length (omap (backend_of ∘ ev) (calls run)) ≤ 1
  ∧ (∀ v,
       outcome run = Ok v →
       length (omap (backend_of ∘ ev) (calls run)) = 1).
Proof.
  intros run. subst run.
  destruct (save_img_trace filename np_image metadata use_original_ornt
              backend dtype channels_axis mkdir parents kwargs w)
    as (pre & Hpre & [(x & w1 & ->) | (writer & w1 & ->)]).
  { unfold calls, outcome. simpl.
    destruct Hpre as [-> | [-> ->]]; simpl;
      (split; [intros c Hc; in_calls; auto |]); repeat split; try lia; done. }
  rewrite write_via_run. unfold calls, outcome. cbv zeta.
  destruct (if mkdir then _ else _) as [[x | u] w2].
  { destruct Hpre as [-> | [-> ->]], mkdir; simpl;
      (split; [intros c Hc; in_calls; simpl; auto |]);
      repeat split; try lia; done. }
  destruct (cast_result np_image dtype) as [x | a] eqn:Hcast.
  { destruct Hpre as [-> | [-> ->]], mkdir; simpl;
      (split; [intros c Hc; in_calls; simpl; auto |]);
      repeat split; try lia; done. }
  pose proof (backend_of_write_event writer filename a metadata
                use_original_ornt channels_axis kwargs) as [b Hb].
  destruct (match writer with nib_writer => _ | itk_writer => _ end)
    as [r w3].
  destruct Hpre as [-> | [-> ->]], mkdir; simpl; rewrite ?Hb; simpl;
    (split; [intros c Hc; in_calls; simpl; eauto 6 |]);
    repeat split; try lia; done.
Qed.

End CallBudget.

Lemma read_img_call_budget_witness :
  length
    (omap (backend_of ∘ ev)
       (calls (read_img (H := InMemory.env) ["brain.nii.gz"; "data"] None None
                 None false (Some (-1)%Z) [] InMemory.disk)))
  = 1.
Proof.
  destruct (read_img_call_budget (H := InMemory.env) ["brain.nii.gz"; "data"]
              None None None false (Some (-1)%Z) [] InMemory.disk)
    as (_ & _ & _ & Hok).
  apply (Hok (InMemory.scan, "RAS")). reflexivity.
Defined.

Lemma save_img_call_budget_witness :
  length
    (omap (backend_of ∘ ev)
       (calls (save_img (H := InMemory.env) ["x.nii"; "b"; "a"; "data"]
                 InMemory.scan "RAS" true None (Some Numpy.uint8) None true
                 true [] InMemory.disk)))
  = 1.
Proof.
  destruct (save_img_call_budget (H := InMemory.env)
              ["x.nii"; "b"; "a"; "data"] InMemory.scan "RAS" true None
              (Some Numpy.uint8) None true true [] InMemory.disk)
    as (_ & _ & _ & Hok).
  apply (Hok tt). reflexivity.
Defined.

(** ** Selectors that mean the same *)

Section Synonyms.
Context `{Env}.

(** X5.  The two spellings of the DICOM selector are interchangeable:
    [read_img] with ['pydicom'] does what it does with ['pdcm'], whatever
    the other arguments, the refusal of a desired orientation included. *)
Theorem pdcm_pydicom_synonyms input_path desired_ornt dtype header
    channels_axis kwargs w :
  read_img input_path desired_ornt (Some "pydicom") dtype header channels_axis
    kwargs w
  = read_img input_path desired_ornt (Some "pdcm") dtype header channels_axis
      kwargs w.
Proof. reflexivity. Qed.

(** X6.  Leaving the backend out is the same as asking the sniffer and then
    naming the backend oneself: after the call to [is_nifti], [read_img] and
    [save_img] with [backend=None] go on exactly as with ['nib'] when the
    verdict is true and with ['itk'] when it is false, from the world that
    the sniffer left. *)
Theorem auto_selection_as_explicit (path : Path) w :
  (∀ desired_ornt dtype header channels_axis kwargs,
     read_img path desired_ornt None dtype header channels_axis kwargs w
     = match is_nifti path None w with
       | (inl x, w1) =>
           (Raise (Propagated x), w1, [MkCall (E_is_nifti path None) w])
       | (inr nifti, w1) =>
           after (MkCall (E_is_nifti path None) w)
             (read_img path desired_ornt
                (Some (if nifti then "nib" else "itk")) dtype header
                channels_axis kwargs w1)
       end)
  ∧ (∀ np_image metadata use_original_ornt dtype channels_axis mkdir parents
       kwargs,
       save_img path np_image metadata use_original_ornt None dtype
         channels_axis mkdir parents kwargs w
       = match is_nifti path (Some false) w with
         | (inl x, w1) =>
             (Raise (Propagated x), w1,
              [MkCall (E_is_nifti path (Some false)) w])
         | (inr nifti, w1) =>
             after (MkCall (E_is_nifti path (Some false)) w)
               (save_img path np_image metadata use_original_ornt
                  (Some (if nifti then "nib" else "itk")) dtype channels_axis
                  mkdir parents kwargs w1)
         end).
Proof.
  split; intros.
  - rewrite read_img_None.
    destruct (is_nifti path None w) as [[x | []] w1]; [done | |].
    + by rewrite read_img_nib.
    + by rewrite read_img_itk.
  - rewrite save_img_None.
    destruct (is_nifti path (Some false) w) as [[x | []] w1]; [done | |].
    + by rewrite save_img_nib.
    + by rewrite save_img_itk.
Qed.

(** X7.  Without [mkdir] the flag [parents] plays no part in [save_img]:
    the run is the same for both of its values. *)
Theorem save_img_parents_unused filename np_image metadata use_original_ornt
    backend dtype channels_axis parents parents' kwargs w :
  save_img filename np_image metadata use_original_ornt backend dtype
    channels_axis false parents kwargs w
  = save_img filename np_image metadata use_original_ornt backend dtype
      channels_axis false parents' kwargs w.
Proof. reflexivity. Qed.

End Synonyms.

(** ** The dtype argument *)

Section Dtype.
Context `{Env}.

(** X8.  The dtype argument of [read_img] is post-processing: reading with
    a dtype is reading without one and then casting the array that came
    back with [astype], the metadata staying as it is; an exception of the
    cast is raised after the read, in the world the read left. *)
Theorem read_img_dtype_postprocessing input_path desired_ornt backend
    (d : DType) header channels_axis kwargs w :
  read_img input_path desired_ornt backend (Some d) header channels_axis
    kwargs w
  = (r ← read_img input_path desired_ornt backend None header channels_axis
           kwargs;
     np_image ← compute (astype r.1 d);
     mret (np_image, r.2)) w.
Proof.
  unfold read_img. unfold_M.
  destruct backend as [token |]; [| by_cases].
  destruct (String.eqb token "nib"), (String.eqb token "itk"),
    (String.eqb token "pdcm" || String.eqb token "pydicom"), desired_ornt;
    by_cases.
Qed.

(** X9.  The dtype argument of the two save operations stands for a cast
    made by the caller, when that cast goes through: saving [np_image] with
    dtype [d] is saving [np_image.astype(d)] with no dtype. *)
Theorem save_dtype_precast np_image (d : DType) np_image' metadata
    use_original_ornt channels_axis parents kwargs w :
  astype np_image d = inr np_image' →
  (∀ filename backend mkdir,
     save_img filename np_image metadata use_original_ornt backend (Some d)
       channels_axis mkdir parents kwargs w
     = save_img filename np_image' metadata use_original_ornt backend None
         channels_axis mkdir parents kwargs w)
  ∧ (∀ dirname allow_dcm_reorient,
       save_dir dirname np_image metadata use_original_ornt (Some d)
         channels_axis parents allow_dcm_reorient kwargs w
       = save_dir dirname np_image' metadata use_original_ornt None
           channels_axis parents allow_dcm_reorient kwargs w).
Proof.
  intros Hcast. split.
  - intros filename backend mkdir.
    unfold save_img. unfold_M. rewrite Hcast.
    destruct backend as [token |]; [| by_cases].
    destruct (String.eqb token "nib"), (String.eqb token "itk"); by_cases.
  - intros. rewrite !save_dir_run. simpl. by rewrite Hcast.
Qed.

End Dtype.

Lemma save_dtype_precast_witness :
  save_img (H := Checked.env) ["out.mha"; "data"]
    (Numpy.MkArray Numpy.int16 [0; 44; 255]%Z) "LPS" true None
    (Some Numpy.uint8) None false false [] InMemory.disk
  = save_img (H := Checked.env) ["out.mha"; "data"]
      (Numpy.MkArray Numpy.uint8 [0; 44; 255]%Z) "LPS" true None None None
      false false [] InMemory.disk.
Proof.
  destruct (save_dtype_precast (H := Checked.env)
              (Numpy.MkArray Numpy.int16 [0; 44; 255]%Z) Numpy.uint8
              (Numpy.MkArray Numpy.uint8 [0; 44; 255]%Z) "LPS" true None false
              [] InMemory.disk) as [Hsave _]; [reflexivity |].
  apply Hsave.
Defined.

(** ** Failures and what they leave behind *)

Section Failures.
Context `{Env}.

(** X10.  Where a run of [save_img] stops.  When the cast raises, no writer
    is called, whatever the other arguments.  With [mkdir=True] the
    directory is made before the cast: when [Path.mkdir] raises, the run
    ends there with its exception, and when it returns and the cast then
    raises, the run ends with the exception of the cast in the world that
    [Path.mkdir] left, so that the directory made stays; in both cases the
    creation is the last call of the run. *)
Theorem save_img_failure_order filename np_image metadata use_original_ornt
    backend dtype channels_axis parents kwargs w :
  let run mkdir :=
    save_img filename np_image metadata use_original_ornt backend dtype
      channels_axis mkdir parents kwargs w in
  (∀ mkdir x c,
     cast_result np_image dtype = inl x →
     c ∈ calls (run mkdir) → backend_of (ev c) = None)
  ∧ (∀ c,
       c ∈ calls (run true) → is_mkdir (ev c) = true →
       ∀ x w1,
         Path_mkdir (Path_parent filename) parents true (before c) = (inl x, w1)
         ∨ (Path_mkdir (Path_parent filename) parents true (before c)
            = (inr tt, w1)
            ∧ cast_result np_image dtype = inl x) →
         run true = (Raise (Propagated x), w1, calls (run true))
         ∧ last (calls (run true)) = Some c).
Proof.
  intros run. subst run. cbv beta. split.
  - intros mkdir x c Hcast Hc.
    destruct (save_img_trace filename np_image metadata use_original_ornt
                backend dtype channels_axis mkdir parents kwargs w)
      as (pre & Hpre & [(x' & w1 & Hrun) | (writer & w1 & Hrun)]);
      rewrite Hrun in Hc; unfold calls in Hc; simpl in Hc.
    { destruct Hpre as [-> | [-> _]]; by in_calls. }
    rewrite write_via_run, Hcast in Hc. cbv zeta in Hc.
    destruct (if mkdir then _ else _) as [[e | u] w2];
      destruct Hpre as [-> | [-> _]], mkdir; simpl in Hc; by in_calls.
  - intros c Hc Hm x w1 Hfail.
    destruct (save_img_trace filename np_image metadata use_original_ornt
                backend dtype channels_axis true parents kwargs w)
      as (pre & Hpre & [(x' & w2 & Hrun) | (writer & w2 & Hrun)]);
      rewrite Hrun in Hc |- *; unfold calls in Hc |- *; simpl in Hc |- *.
    { destruct Hpre as [-> | [-> _]]; by in_calls. }
    rewrite write_via_run in Hc |- *. cbv zeta in Hc |- *.
    destruct (Path_mkdir (Path_parent filename) parents true w2)
      as [[e | []] w3] eqn:Hmk.
    + simpl in Hc |- *.
      assert (c = MkCall (E_Path_mkdir (Path_parent filename) parents true) w2)
        as -> by (destruct Hpre as [-> | [-> _]]; by in_calls).
      simpl in Hfail. rewrite Hmk in Hfail.
      destruct Hfail as [[= <- <-] | [[=] _]].
      split; [done |]. by rewrite last_snoc.
    + destruct (cast_result np_image dtype) as [e | a] eqn:Hcast.
      * simpl in Hc |- *.
        assert (c = MkCall (E_Path_mkdir (Path_parent filename) parents true)
                      w2)
          as -> by (destruct Hpre as [-> | [-> _]]; by in_calls).
        simpl in Hfail. rewrite Hmk in Hfail.
        destruct Hfail as [[=] | [[= <-] [= <-]]].
        split; [done |]. by rewrite last_snoc.
      * destruct (match writer with nib_writer => _ | itk_writer => _ end)
          as [r w4]. simpl in Hc.
        assert (c = MkCall (E_Path_mkdir (Path_parent filename) parents true)
                      w2)
          as -> by (destruct Hpre as [-> | [-> _]], writer; by in_calls).
        simpl in Hfail. rewrite Hmk in Hfail.
        by destruct Hfail as [[=] | [_ [=]]].
Qed.

(** X11.  With the NIfTI backend the desired orientation is converted
    before anything is read, [None] included: when [inv_axcodes] raises,
    [read_img] with ['nib'] raises the same in the world it was called in,
    with no call made; with no backend given and a sniffer that says NIfTI,
    the question to the sniffer is the only call; and no run of [read_img]
    with that orientation calls the reader of [NibIO]. *)
Theorem read_img_conversion_failure input_path desired_ornt dtype header
    channels_axis kwargs w x :
  inv_axcodes desired_ornt = inl x →
  read_img input_path desired_ornt (Some "nib") dtype header channels_axis
    kwargs w
  = (Raise (Propagated x), w, [])
  ∧ (∀ w1,
       is_nifti input_path None w = (inr true, w1) →
       read_img input_path desired_ornt None dtype header channels_axis
         kwargs w
       = (Raise (Propagated x), w1, [MkCall (E_is_nifti input_path None) w]))
  ∧ (∀ backend c,
       c ∈ calls (read_img input_path desired_ornt backend dtype header
                    channels_axis kwargs w) →
       backend_of (ev c) ≠ Some NibIO).
Proof.
  intros Hinv. split; [| split].
  - rewrite read_img_nib, read_via_run. simpl. by rewrite Hinv.
  - intros w1 Hn. rewrite read_img_None, Hn, read_via_run. simpl.
    by rewrite Hinv.
  - intros backend c Hc.
    apply read_img_calls in Hc as [[Hs _] | (reader & w1 & Hc)].
    { by destruct (ev c). }
    apply read_via_calls in Hc as (ornt & Ha & ->).
    destruct reader; simpl in *; congruence.
Qed.

(** X12.  Once [read_img] has called a backend, that call decides the run:
    it is the last call; when the backend raises, [read_img] raises the same
    exception; when it returns, [read_img] returns its metadata with the
    array cast, or raises what the cast raised; and the world is in each
    case the one the backend left. *)
Theorem read_img_outcome_from_backend_call input_path desired_ornt backend
    dtype header channels_axis kwargs w c reader ornt :
  let run :=
    read_img input_path desired_ornt backend dtype header channels_axis
      kwargs w in
  c ∈ calls run →
  ev c = read_event reader input_path ornt header channels_axis kwargs →
  last (calls run) = Some c
  ∧ match
      backend_read reader input_path ornt header channels_axis kwargs
        (before c)
    with
    | (inl x, w1) => outcome run = Raise (Propagated x) ∧ final run = w1
    | (inr (raw, metadata), w1) =>
        final run = w1
        ∧ outcome run
          = match cast_result raw dtype with
            | inl x => Raise (Propagated x)
            | inr np_image => Ok (np_image, metadata)
            end
    end.
Proof.
  intros run Hc Hev. subst run.
  destruct (read_img_trace input_path desired_ornt backend dtype header
              channels_axis kwargs w)
    as (pre & Hpre & [(x & w1 & Hrun) | (reader' & w1 & Hrun)]);
    rewrite Hrun in Hc |- *; unfold calls, outcome, final in Hc |- *;
    simpl in Hc |- *.
  { destruct Hpre as [-> | [-> _]]; in_calls. by destruct reader. }
  rewrite read_via_run in Hc |- *.
  destruct (adapted_ornt reader' desired_ornt) as [x | ornt'].
  { simpl in Hc. destruct Hpre as [-> | [-> _]]; in_calls. by destruct reader. }
  cbv zeta in Hc |- *.
  assert (c = MkCall
                (read_event reader' input_path ornt' header channels_axis
                   kwargs) w1) as ->.
  { destruct (backend_read reader' _ _ _ _ _ _) as [[x | [raw md]] w2];
      [| destruct (cast_result raw dtype)];
      destruct Hpre as [-> | [-> _]]; simpl in Hc; in_calls; try done;
      by destruct reader. }
  simpl in Hev |- *.
  assert (backend_read reader input_path ornt header channels_axis kwargs w1
          = backend_read reader' input_path ornt' header channels_axis kwargs
              w1) as ->.
  { destruct reader, reader'; simpl in Hev |- *; by simplify_eq. }
  destruct (backend_read reader' _ _ _ _ _ _) as [[x | [raw md]] w2];
    [| destruct (cast_result raw dtype)]; simpl;
    by rewrite last_snoc.
Qed.

(** X13.  Once [save_img] has called a backend writer, that call decides the
    run: it is the last call, [save_img] returns when the writer returns and
    raises what the writer raised, and the world is the one the writer
    left. *)
Theorem save_img_outcome_from_writer_call filename np_image metadata
    use_original_ornt backend dtype channels_axis mkdir parents kwargs w c
    writer a :
  let run :=
    save_img filename np_image metadata use_original_ornt backend dtype
      channels_axis mkdir parents kwargs w in
  let write :=
    backend_write writer filename a metadata use_original_ornt channels_axis
      kwargs (before c) in
  c ∈ calls run →
  ev c = write_event writer filename a metadata use_original_ornt
           channels_axis kwargs →
  last (calls run) = Some c
  ∧ outcome run = outcome write
  ∧ final run = final write.
Proof.
  intros run write Hc Hev. subst run write.
  destruct (save_img_trace filename np_image metadata use_original_ornt
              backend dtype channels_axis mkdir parents kwargs w)
    as (pre & Hpre & [(x & w1 & Hrun) | (writer' & w1 & Hrun)]);
    rewrite Hrun in Hc |- *; unfold calls, outcome, final in Hc |- *;
    simpl in Hc |- *.
  { destruct Hpre as [-> | [-> _]]; in_calls. by destruct writer. }
  rewrite write_via_run in Hc |- *. cbv zeta in Hc |- *.
  destruct (if mkdir then _ else _) as [[x | u] w2].
  { destruct Hpre as [-> | [-> _]], mkdir; simpl in Hc; in_calls;
      by destruct writer. }
  destruct (cast_result np_image dtype) as [x | a'].
  { destruct Hpre as [-> | [-> _]], mkdir; simpl in Hc; in_calls;
      by destruct writer. }
  assert (c = MkCall
                (write_event writer' filename a' metadata use_original_ornt
                   channels_axis kwargs) w2) as ->.
  { destruct (match writer' with nib_writer => _ | itk_writer => _ end)
      as [r w3].
    destruct Hpre as [-> | [-> _]], mkdir; simpl in Hc; in_calls; try done;
      by destruct writer. }
  simpl in Hev |- *.
  assert (writer = writer' ∧ a = a') as [-> ->]
    by (destruct writer, writer'; simpl in Hev; by simplify_eq).
  unfold backend_write, extern.
  destruct writer';
    [destruct (NibIO_save_img _ _ _ _ _ _ _) as [r w3]
    | destruct (ItkIO_save_img _ _ _ _ _ _ _) as [r w3]];
    simpl; by rewrite app_assoc, last_snoc.
Qed.

End Failures.

Lemma save_img_failure_order_witness :
  save_img (H := Checked.env) ["x.mha"; "new"; "data"]
    (Numpy.MkArray Numpy.int16 [0; 300]%Z) "LPS" true (Some "itk")
    (Some Numpy.uint8) None true false [] InMemory.disk
  = (Raise (Propagated (Checked.OverflowError 300)),
     <[ ["new"; "data"] := Pathlib.Dir ]> InMemory.disk,
     [MkCall (H := Checked.env)
        (E_Path_mkdir (H := Checked.env) ["new"; "data"] false true)
        InMemory.disk])
  ∧ Pathlib.is_dir ["new"; "data"] InMemory.disk = false
  ∧ Pathlib.is_dir ["new"; "data"]
      (<[ ["new"; "data"] := Pathlib.Dir ]> InMemory.disk) = true.
Proof.
  split; [| split; reflexivity].
  destruct (save_img_failure_order (H := Checked.env) ["x.mha"; "new"; "data"]
              (Numpy.MkArray Numpy.int16 [0; 300]%Z) "LPS" true (Some "itk")
              (Some Numpy.uint8) None false [] InMemory.disk) as [_ Hmk].
  destruct (Hmk (MkCall (H := Checked.env)
                   (E_Path_mkdir (H := Checked.env) ["new"; "data"] false true)
                   InMemory.disk))
    with (x := Checked.OverflowError 300)
         (w1 := <[ ["new"; "data"] := Pathlib.Dir ]> InMemory.disk)
    as [Hrun _].
  - exact (list_elem_of_here _ []).
  - reflexivity.
  - right. split; reflexivity.
  - exact Hrun.
Defined.

Lemma read_img_conversion_failure_witness :
  read_img (H := InMemory.env) ["brain.nii.gz"; "data"] (Some "RAX")
    (Some "nib") None false (Some (-1)%Z) [] InMemory.disk
  = (Raise (Propagated (InMemory.KeyError "RAX")), InMemory.disk, []).
Proof.
  apply (read_img_conversion_failure (H := InMemory.env)
           ["brain.nii.gz"; "data"] (Some "RAX") None false (Some (-1)%Z) []
           InMemory.disk (InMemory.KeyError "RAX")).
  reflexivity.
Defined.

Lemma read_img_outcome_from_backend_call_witness :
  outcome (read_img (H := InMemory.env) ["missing.mha"; "data"] None
             (Some "itk") (Some Numpy.uint8) false (Some (-1)%Z) []
             InMemory.disk)
  = Raise (Propagated (InMemory.OS Pathlib.FileNotFoundError)).
Proof.
  destruct (read_img_outcome_from_backend_call (H := InMemory.env)
              ["missing.mha"; "data"] None (Some "itk") (Some Numpy.uint8)
              false (Some (-1)%Z) [] InMemory.disk
              (MkCall (H := InMemory.env)
                 (E_ItkIO_read_img (H := InMemory.env) ["missing.mha"; "data"]
                    None false (Some (-1)%Z) []) InMemory.disk)
              itk_reader None) as [_ Hrun].
  - exact (list_elem_of_here _ []).
  - reflexivity.
  - exact (proj1 Hrun).
Defined.

Lemma save_img_outcome_from_writer_call_witness :
  outcome (save_img (H := InMemory.env) ["x.nii"; "data"] InMemory.scan "RAS"
             true (Some "nib") None None false false [] InMemory.disk)
  = Ok tt
  ∧ Pathlib.is_file ["x.nii"; "data"]
      (final (save_img (H := InMemory.env) ["x.nii"; "data"] InMemory.scan
                "RAS" true (Some "nib") None None false false []
                InMemory.disk))
    = true.
Proof.
  destruct (save_img_outcome_from_writer_call (H := InMemory.env)
              ["x.nii"; "data"] InMemory.scan "RAS" true (Some "nib") None
              None false false [] InMemory.disk
              (MkCall (H := InMemory.env)
                 (E_NibIO_save_img (H := InMemory.env) ["x.nii"; "data"]
                    InMemory.scan "RAS" true None []) InMemory.disk)
              nib_writer InMemory.scan) as (_ & Hout & Hfin).
  - exact (list_elem_of_here _ []).
  - reflexivity.
  - split; [exact Hout | rewrite Hfin; reflexivity].
Defined.
